(** * Node-RED admin authentication against PostgreSQL

    A shallow embedding of the [users] / [authenticate] callbacks of
    [customAuth.js] (bcrypt with an application-wide static salt, pooled
    connection) and of its AES-256-CBC siblings (pooled and single-client),
    together with the properties their specification states.  The fourth
    file of the repository, [customAuth.js] without the static salt, is
    embedded as [BcryptPlain].

    Strings are byte strings: a JavaScript string is represented by its UTF-8
    encoding, which is what both [bcrypt] and [Buffer.from(s, "utf8")] consume. *)

From Stdlib Require Import String Ascii List Arith Lia.
Import ListNotations.
Open Scope string_scope.

Set Implicit Arguments.

(** ** JavaScript values coming back from the driver *)

(** A nullable [TEXT] column: SQL [NULL] is read as [null]. *)
Definition sqltext := option string.

(** [!v] for a value that is [null] or a string: [null] and [""] are falsy. *)
Definition js_not (v : sqltext) : bool :=
  match v with
  | None => true
  | Some s => String.eqb s ""
  end.

(** [a || b] on strings read from the configuration. *)
Definition js_or (a : sqltext) (b : string) : string :=
  match a with
  | None => b
  | Some s => if String.eqb s "" then b else s
  end.

(** ** The credential store: table [nodered_users] *)

Record Row := mkRow {
  id : nat;                 (* SERIAL PRIMARY KEY *)
  username : string;        (* VARCHAR(100) UNIQUE NOT NULL *)
  password : sqltext;       (* TEXT *)
  permissions : sqltext     (* TEXT *)
}.

Definition Table := list Row.

(** [SELECT * FROM nodered_users WHERE username=$1] *)
Definition sql_select (u : string) (t : Table) : list Row :=
  filter (fun r => String.eqb (username r) u) t.

(** [UPDATE nodered_users SET password=$1 WHERE username=$2] *)
Definition sql_update_password (pw u : string) (t : Table) : Table :=
  map (fun r => if String.eqb (username r) u
                then mkRow (id r) (username r) (Some pw) (permissions r)
                else r) t.

(** The schema's [UNIQUE] constraint on [username]. *)
Definition unique_usernames (t : Table) : Prop := NoDup (map username t).

(** The object [{ username: ..., permissions: ... }] handed to the host. *)
Record UserInfo := mkUser {
  ui_username : string;
  ui_permissions : sqltext
}.

(** [SELECT username, permissions FROM nodered_users WHERE username=$1] *)
Definition sql_select_info (u : string) (t : Table) : list UserInfo :=
  map (fun r => mkUser (username r) (permissions r)) (sql_select u t).

(** ** The world an invocation runs in *)

Inductive Error := QueryError | BcryptError | CipherError.

(** [faults] schedules the outcome of the external calls still to come (a
    [true] makes the next call fail; an exhausted schedule means no more
    failures); [rng] is the library's salt generator, indexed by the number of
    salts [drawn] so far; [console] collects what [console.error] prints. *)
Record World := mkWorld {
  table : Table;
  faults : list bool;
  rng : nat -> nat -> string;
  drawn : nat;
  console : list string
}.

(** No failure is scheduled. *)
Definition quiet (w : World) : Prop := forallb negb (faults w) = true.

(** ** Asynchronous computations that may throw *)

Definition Async (A : Type) := World -> (Error + A) * World.

Definition ret {A} (a : A) : Async A := fun w => (inr a, w).

Definition throw {A} (e : Error) : Async A := fun w => (inl e, w).

Definition bind {A B} (m : Async A) (f : A -> Async B) : Async B :=
  fun w => match m w with
           | (inr a, w') => f a w'
           | (inl e, w') => (inl e, w')
           end.

(** [try { m } catch (error) { h error }] *)
Definition try_catch {A} (m : Async A) (h : Error -> Async A) : Async A :=
  fun w => match m w with
           | (inr a, w') => (inr a, w')
           | (inl e, w') => h e w'
           end.

Declare Scope async_scope.
Delimit Scope async_scope with async.
Notation "x <- m ;; k" := (bind m (fun x => k))
  (at level 61, m at next level, right associativity) : async_scope.
Notation "m ;; k" := (bind m (fun _ => k))
  (at level 61, right associativity) : async_scope.
Open Scope async_scope.

(** What the caller of an [async function] (or of a hand-built [Promise])
    observes. *)
Inductive Outcome (A : Type) :=
| Resolved (a : A)
| Rejected (e : Error)
| Pending.
Arguments Rejected {A} e.
Arguments Pending {A}.

(** [async function (...) { body }] *)
Definition async_function {A} (body : Async A) (w : World) : Outcome A * World :=
  match body w with
  | (inr a, w') => (Resolved a, w')
  | (inl e, w') => (Rejected e, w')
  end.

(** [new Promise(async function (resolve) { body })]: the executor returns
    what it passed to [resolve], if it called it; a throw inside the executor
    is lost and leaves the promise pending. *)
Definition new_Promise {A} (executor : Async (option A)) (w : World)
  : Outcome A * World :=
  match executor w with
  | (inr (Some a), w') => (Resolved a, w')
  | (inr None, w') => (Pending, w')
  | (inl _, w') => (Pending, w')
  end.

(** ** External calls *)

Definition set_faults (fs : list bool) (w : World) : World :=
  mkWorld (table w) fs (rng w) (drawn w) (console w).

Definition set_table (t : Table) (w : World) : World :=
  mkWorld t (faults w) (rng w) (drawn w) (console w).

(** Every call that leaves the process consults the schedule. *)
Definition external (e : Error) : Async unit :=
  fun w => match faults w with
           | true :: fs => (inl e, set_faults fs w)
           | false :: fs => (inr tt, set_faults fs w)
           | [] => (inr tt, w)
           end.

(** [console.error(message, error.stack)] *)
Definition console_error (message : string) : Async unit :=
  fun w => (inr tt, mkWorld (table w) (faults w) (rng w) (drawn w)
                            (console w ++ [message])).

(** [pool.query("SELECT * ...", [username])], field [rows] of the result. *)
Definition query_select (u : string) : Async (list Row) :=
  external QueryError ;; fun w => (inr (sql_select u (table w)), w).

(** [pool.query("SELECT username, permissions ...", [username])] *)
Definition query_select_info (u : string) : Async (list UserInfo) :=
  external QueryError ;; fun w => (inr (sql_select_info u (table w)), w).

(** [pool.query("UPDATE ... SET password=$1 WHERE username=$2", [pw, u])] *)
Definition query_update_password (pw u : string) : Async unit :=
  external QueryError ;;
  fun w => (inr tt, set_table (sql_update_password pw u (table w)) w).

(** ** The cryptographic libraries

    Neither library is part of the repository; each is an interface whose
    laws record the documented behaviour the callbacks rely on. *)

(** The [bcrypt] package.  [bcrypt_hash data salt] is the digest string,
    which embeds the salt; only the first 72 bytes of [data] are used, the
    rest is ignored when hashing and when matching.  [bcrypt_compare] hashes
    its first argument again under the salt embedded in the digest and
    compares the two digest strings; no law says which inputs share a
    digest beyond [bcrypt_72] (the library also reads a shorter input
    cyclically, so other collisions exist). *)
Class Bcrypt := {
  bcrypt_hash : string -> string -> string;
  bcrypt_compare : string -> string -> bool;
  bcrypt_compare_hash : forall data salt,
    bcrypt_compare data (bcrypt_hash data salt) = true;
  bcrypt_compare_rehash : forall data data' salt,
    bcrypt_compare data' (bcrypt_hash data salt)
    = String.eqb (bcrypt_hash data' salt) (bcrypt_hash data salt);
  bcrypt_72 : forall data salt,
    bcrypt_hash data salt = bcrypt_hash (substring 0 72 data) salt;
  bcrypt_hash_nonempty : forall data salt, bcrypt_hash data salt <> ""
}.

(** Node's [crypto] cipher and [Buffer] base64 encoding.
    [aes_256_cbc key iv plain] is [cipher.update(plain)] followed by
    [cipher.final()]; PKCS#7 padding makes it non-empty, and the matching
    decipher recovers the plaintext. *)
Class NodeCrypto := {
  aes_256_cbc : string -> string -> string -> string;
  aes_256_cbc_decipher : string -> string -> string -> string;
  decipher_cipher : forall key iv plain,
    aes_256_cbc_decipher key iv (aes_256_cbc key iv plain) = plain;
  cipher_nonempty : forall key iv plain, aes_256_cbc key iv plain <> "";
  base64 : string -> string;
  base64_decode : string -> string;
  base64_decode_encode : forall bytes, base64_decode (base64 bytes) = bytes;
  base64_nonempty : forall bytes, bytes <> "" -> base64 bytes <> ""
}.

Definition draw_salt (rounds : nat) : Async string :=
  fun w => (inr (rng w rounds (drawn w)),
            mkWorld (table w) (faults w) (rng w) (S (drawn w)) (console w)).

(** [bcrypt.genSalt(rounds)] *)
Definition bcrypt_genSalt (rounds : nat) : Async string :=
  external BcryptError ;; draw_salt rounds.

(** [bcrypt.hash(data, salt)] *)
Definition bcrypt_hash_call {B : Bcrypt} (data salt : string) : Async string :=
  external BcryptError ;; ret (bcrypt_hash data salt).

(** [bcrypt.compare(data, encrypted)]; a missing argument is an error. *)
Definition bcrypt_compare_call {B : Bcrypt} (data : string) (encrypted : sqltext)
  : Async bool :=
  match encrypted with
  | None => throw BcryptError
  | Some h => external BcryptError ;; ret (bcrypt_compare data h)
  end.

(** [a === b] where [a] was read from a nullable column and [b] is a string. *)
Definition js_strict_eq (a : sqltext) (b : string) : bool :=
  match a with
  | None => false
  | Some s => String.eqb s b
  end.

(** ** customAuth.js: bcrypt with a static salt, pooled connection *)

Module CustomAuth.
Section WithConfig.
Context {B : Bcrypt}.
(** [config.security.salt] *)
Variable config_security_salt : sqltext.

Definition SALT_ROUNDS : nat := 10.

Definition STATIC_SALT : string :=
  js_or config_security_salt "default_salt_value".

Definition hashPassword (plainString : string) : Async string :=
  try_catch
    (let saltedPassword := plainString ++ STATIC_SALT in
     salt <- bcrypt_genSalt SALT_ROUNDS ;;
     bcrypt_hash_call saltedPassword salt)
    (fun error => console_error "Error hashing password:" ;; throw error).

Definition comparePassword (plainString : string) (hash : sqltext) : Async bool :=
  try_catch
    (let saltedPassword := plainString ++ STATIC_SALT in
     bcrypt_compare_call saltedPassword hash)
    (fun error => console_error "Error comparing password:" ;; throw error).

Definition logError (error : Error) (message : string) : Async unit :=
  console_error (message ++ ":").

Definition users (uname : string) : World -> Outcome (option UserInfo) * World :=
  async_function
    (try_catch
       (rows <- query_select_info uname ;;
        match rows with
        | user :: _ =>
            ret (Some (mkUser (ui_username user) (ui_permissions user)))
        | [] => ret None
        end)
       (fun error => logError error "Error fetching user details" ;; ret None)).

Definition authenticate (uname pword : string)
  : World -> Outcome (option UserInfo) * World :=
  async_function
    (try_catch
       (rows <- query_select uname ;;
        match rows with
        | user :: _ =>
            if js_not (password user) then
              hashedPassword <- hashPassword pword ;;
              query_update_password hashedPassword uname ;;
              rows' <- query_select uname ;;
              match rows' with
              | updatedUser :: _ =>
                  ret (Some (mkUser (username updatedUser)
                                    (permissions updatedUser)))
              | [] => ret None
              end
            else
              isPasswordValid <- comparePassword pword (password user) ;;
              if isPasswordValid
              then ret (Some (mkUser (username user) (permissions user)))
              else ret None
        | [] => ret None
        end)
       (fun error => logError error "Error during authentication" ;; ret None)).
End WithConfig.
End CustomAuth.

(** ** AES-256-CBC variants *)

Module AesPool.
Section WithConfig.
Context {C : NodeCrypto}.
(** [Buffer.from(config.encryption.secret, "hex")] and
    [Buffer.from(config.encryption.iv, "hex")] *)
Variables key ivBuffer : string.

Definition encrypt (plainString AesKey AesIV : string) : Async string :=
  external CipherError ;;
  let encrypted := aes_256_cbc AesKey AesIV plainString in
  ret (base64 encrypted).

Definition users (uname : string) : World -> Outcome (option UserInfo) * World :=
  async_function
    (try_catch
       (rows <- query_select_info uname ;;
        match rows with
        | user :: _ =>
            ret (Some (mkUser (ui_username user) (ui_permissions user)))
        | [] => ret None
        end)
       (fun error => console_error "Error fetching user details:" ;; ret None)).

Definition authenticate (uname pword : string)
  : World -> Outcome (option UserInfo) * World :=
  async_function
    (try_catch
       (encryptedData <- encrypt pword key ivBuffer ;;
        rows <- query_select uname ;;
        match rows with
        | user :: _ =>
            if js_not (password user) then
              query_update_password encryptedData uname ;;
              rows' <- query_select uname ;;
              match rows' with
              | updatedUser :: _ =>
                  let userWithPermissions :=
                    mkUser (username updatedUser) (permissions updatedUser) in
                  ret (Some userWithPermissions)
              | [] => ret None
              end
            else if js_strict_eq (password user) encryptedData then
              let userWithPermissions :=
                mkUser (username user) (permissions user) in
              ret (Some userWithPermissions)
            else ret None
        | [] => ret None
        end)
       (fun error => console_error "Error executing query:" ;; ret None)).
End WithConfig.
End AesPool.

(** The single-client file: same [encrypt], queries through [globalClient],
    and [authenticate] builds its promise by hand. *)
Module AesClient.
Section WithConfig.
Context {C : NodeCrypto}.
Variables key ivBuffer : string.

Definition encrypt := AesPool.encrypt.

Definition users (uname : string) : World -> Outcome (option UserInfo) * World :=
  async_function
    (try_catch
       (rows <- query_select_info uname ;;
        match rows with
        | user :: _ =>
            ret (Some (mkUser (ui_username user) (ui_permissions user)))
        | [] => ret None
        end)
       (fun error => console_error "Error fetching user details" ;; ret None)).

(** [resolve v] just records [v]: the executor ends right after it. *)
Definition resolve {A} (v : A) : Async (option A) := ret (Some v).

Definition authenticate (uname pword : string)
  : World -> Outcome (option UserInfo) * World :=
  new_Promise
    (try_catch
       (encryptedData <- encrypt pword key ivBuffer ;;
        rows <- query_select uname ;;
        match rows with
        | user :: _ =>
            if js_not (password user) then
              query_update_password encryptedData uname ;;
              rows' <- query_select uname ;;
              match rows' with
              | updatedUser :: _ =>
                  let userWithPermissions :=
                    mkUser (username updatedUser) (permissions updatedUser) in
                  resolve (Some userWithPermissions)
              | [] => resolve None
              end
            else if js_strict_eq (password user) encryptedData then
              let userWithPermissions :=
                mkUser (username user) (permissions user) in
              resolve (Some userWithPermissions)
            else resolve None
        | [] => resolve None
        end)
       (fun error => console_error "Error executing query" ;; resolve None)).
End WithConfig.
End AesClient.

(** ** The pooled bcrypt file without static salt *)

Module BcryptPlain.
Section WithLibrary.
Context {B : Bcrypt}.

Definition SALT_ROUNDS : nat := 10.

Definition hashPassword (plainString : string) : Async string :=
  try_catch
    (salt <- bcrypt_genSalt SALT_ROUNDS ;;
     bcrypt_hash_call plainString salt)
    (fun error => console_error "Error hashing password:" ;; throw error).

Definition comparePassword (plainString : string) (hash : sqltext) : Async bool :=
  try_catch
    (bcrypt_compare_call plainString hash)
    (fun error => console_error "Error comparing password:" ;; throw error).

Definition logError (error : Error) (message : string) : Async unit :=
  console_error (message ++ ":").

Definition users (uname : string) : World -> Outcome (option UserInfo) * World :=
  async_function
    (try_catch
       (rows <- query_select_info uname ;;
        match rows with
        | user :: _ =>
            ret (Some (mkUser (ui_username user) (ui_permissions user)))
        | [] => ret None
        end)
       (fun error => logError error "Error fetching user details" ;; ret None)).

Definition authenticate (uname pword : string)
  : World -> Outcome (option UserInfo) * World :=
  async_function
    (try_catch
       (rows <- query_select uname ;;
        match rows with
        | user :: _ =>
            if js_not (password user) then
              hashedPassword <- hashPassword pword ;;
              query_update_password hashedPassword uname ;;
              rows' <- query_select uname ;;
              match rows' with
              | updatedUser :: _ =>
                  ret (Some (mkUser (username updatedUser)
                                    (permissions updatedUser)))
              | [] => ret None
              end
            else
              isPasswordValid <- comparePassword pword (password user) ;;
              if isPasswordValid
              then ret (Some (mkUser (username user) (permissions user)))
              else ret None
        | [] => ret None
        end)
       (fun error => logError error "Error during authentication" ;; ret None)).
End WithLibrary.
End BcryptPlain.

(** ** Executable models of the two library interfaces

    They show that the laws above are consistent and let the callbacks run on
    concrete inputs.  The bcrypt model writes the length of the significant
    prefix in unary, then the prefix, then the salt. *)

Fixpoint unary (n : nat) : string :=
  match n with
  | 0 => "0"
  | S n' => String "1" (unary n')
  end.

Definition model_digest (data : string) : string :=
  let significant := substring 0 72 data in
  unary (String.length significant) ++ significant.

Definition model_hash (data salt : string) : string :=
  model_digest data ++ salt.

Definition model_compare (data encrypted : string) : bool :=
  prefix (model_digest data) encrypted.

(** The cipher model prepends one block marker; base64 is left as the
    identity encoding. *)
Definition model_cipher (key iv plain : string) : string := String "#" plain.

Definition model_decipher (key iv bytes : string) : string :=
  match bytes with
  | EmptyString => EmptyString
  | String _ rest => rest
  end.

(** ** Vocabulary of the specification *)

(** The two results the host observes. *)
Definition Granted (u : string) (perm : sqltext) : Outcome (option UserInfo) :=
  Resolved (Some (mkUser u perm)).

Definition Denied : Outcome (option UserInfo) := Resolved None.

(** The row an [UPDATE ... SET password] leaves behind. *)
Definition set_password (pw : string) (r : Row) : Row :=
  mkRow (id r) (username r) (Some pw) (permissions r).

(** Between [w] and [w'] the table is untouched, or it went through exactly
    the first-use [UPDATE] for [u], taken because the looked-up row's
    password was falsy. *)
Definition writes_at_most_first_use (u : string) (w w' : World) : Prop :=
  table w' = table w \/
  exists user rows secret,
    sql_select u (table w) = user :: rows /\
    js_not (password user) = true /\
    table w' = sql_update_password secret u (table w).

(** A callback always resolves, and resolves to [null] as soon as one of the
    external calls it made failed; [pre] is the part of the schedule it used. *)
Definition fail_closed (f : World -> Outcome (option UserInfo) * World) : Prop :=
  forall w, exists v (pre : list bool),
    fst (f w) = Resolved v /\
    faults w = (pre ++ faults (snd (f w)))%list /\
    (In true pre -> v = None).

(** [n] calls in a row, each starting where the previous one ended. *)
Fixpoint calls {A} (f : World -> Outcome A * World) (n : nat) (w : World)
  : list (Outcome A) * World :=
  match n with
  | 0 => ([], w)
  | S n' =>
      let (o, w1) := f w in
      let (os, w2) := calls f n' w1 in
      (o :: os, w2)
  end.

(** ** Concrete stores for running the callbacks *)

Definition model_rng (rounds n : nat) : string := unary rounds ++ unary n.

Definition world_of (t : Table) : World := mkWorld t [] model_rng 0 [].

(** [alice] exists with permission ["read"] and no password yet. *)
Definition alice_fresh : World :=
  world_of [mkRow 1 "alice" None (Some "read")].

(** [alice]'s password column holds the empty string. *)
Definition alice_blank : World :=
  world_of [mkRow 1 "alice" (Some "") (Some "read")].

(** [alice] after ["hunter2"] was bound on first use, in [customAuth.js]
    run without configured salt, and in the cipher variant under key ["k"]
    and IV ["iv"]. *)
Definition alice_bound_bcrypt : World :=
  world_of [mkRow 1 "alice"
              (Some (model_hash ("hunter2" ++ "default_salt_value")
                                (model_rng 10 0)))
              (Some "read")].

Definition alice_bound_aes : World :=
  world_of [mkRow 1 "alice" (Some (model_cipher "k" "iv" "hunter2"))
              (Some "read")].

(** [alice_fresh] again, after the salt generator has been used once. *)
Definition alice_fresh_later : World :=
  mkWorld (table alice_fresh) [] model_rng 1 [].

Fixpoint replicate (n : nat) (c : ascii) : string :=
  match n with
  | 0 => EmptyString
  | S n' => String c (replicate n' c)
  end.

(** Two passwords of 73 bytes that agree on the first 72. *)
Definition long_x : string := replicate 72 "a" ++ "x".
Definition long_y : string := replicate 72 "a" ++ "y".

(** ** Further vocabulary *)

(** The columns [authenticate] has no statement for. *)
Definition identity (r : Row) : nat * string * sqltext :=
  (id r, username r, permissions r).

(** The password column of the row a lookup of [u] returns. *)
Definition stored_secret (u : string) (t : Table) : option sqltext :=
  option_map password (hd_error (sql_select u t)).

(** A callback prints to the console exactly when one of the external calls
    it made failed; [pre] is the part of the schedule it used and [msgs] what
    it printed. *)
Definition logs_exactly_failures {A} (f : World -> Outcome A * World) : Prop :=
  forall w, exists (pre : list bool) (msgs : list string),
    faults w = (pre ++ faults (snd (f w)))%list /\
    console (snd (f w)) = (console w ++ msgs)%list /\
    (In true pre <-> msgs <> []).

(** [ui] is the username [u] with the permissions of the row a lookup of
    [u] returns in [w]. *)
Definition from_lookup (u : string) (w : World) (ui : UserInfo) : Prop :=
  exists user rows,
    sql_select u (table w) = user :: rows /\
    ui = mkUser u (permissions user).

(** The number of external calls made between [w] and [w'], for a schedule
    long enough to have an entry for each of them. *)
Definition external_calls (w w' : World) : nat :=
  List.length (faults w) - List.length (faults w').

(** [alice] has no password yet, [bob] has ["hunter2"] bound by the cipher
    variant under key ["k"] and IV ["iv"]. *)
Definition alice_and_bob : World :=
  world_of [mkRow 1 "alice" None (Some "read");
            mkRow 2 "bob" (Some (model_cipher "k" "iv" "hunter2")) (Some "*")].

(** [alice] and [bob], neither with a password yet. *)
Definition two_fresh : World :=
  world_of [mkRow 1 "alice" None (Some "read");
            mkRow 2 "bob" None (Some "*")].

(** A table without the [UNIQUE] constraint: two rows for [alice], the
    first without password, the second with one. *)
Definition alice_twice : World :=
  world_of [mkRow 1 "alice" None (Some "read");
            mkRow 2 "alice" (Some (model_cipher "k" "iv" "old")) (Some "*")].

(** [alice] with a password bound by the file without static salt. *)
Definition alice_bound_plain (pw : string) : World :=
  world_of [mkRow 1 "alice" (Some (model_hash pw (model_rng 10 0)))
              (Some "read")].

(** A schedule of five successes; no run makes more external calls. *)
Definition five_successes (t : Table) : World :=
  mkWorld t [false; false; false; false; false] model_rng 0 [].

(** ** String facts used by the models *)

Lemma append_assoc (a b c : string) : (a ++ b) ++ c = a ++ (b ++ c).
Proof. induction a as [|x a IH]; simpl; [reflexivity | now rewrite IH]. Qed.

Lemma prefix_append (a s : string) : prefix a (a ++ s) = true.
Proof.
  induction a as [|x a IH]; simpl.
  - now destruct s.
  - destruct (ascii_dec x x) as [_|n]; [exact IH | now elim n].
Qed.

Lemma prefix_same_length (x y s : string) :
  prefix x (y ++ s) = true -> String.length x = String.length y -> x = y.
Proof.
  revert y; induction x as [|a x IH]; intros [|b y]; simpl; try discriminate.
  - reflexivity.
  - destruct (ascii_dec a b) as [->|]; [|discriminate].
    intros H L. f_equal. apply IH; [exact H | now injection L].
Qed.

Lemma prefix_unary (n m : nat) (x y : string) :
  prefix (unary n ++ x) (unary m ++ y) = true -> n = m /\ prefix x y = true.
Proof.
  revert m; induction n as [|n IH]; intros [|m]; simpl.
  - intros H. split; [reflexivity | exact H].
  - discriminate.
  - discriminate.
  - intros H. destruct (IH m H) as [-> Hp]. now split.
Qed.

Lemma substring_idem (n : nat) (s : string) :
  substring 0 n (substring 0 n s) = substring 0 n s.
Proof.
  revert s; induction n as [|n IH]; intros [|c s]; simpl; try reflexivity.
  now rewrite IH.
Qed.

Lemma unary_nonempty (n : nat) (s : string) : unary n ++ s <> "".
Proof. destruct n; discriminate. Qed.

Lemma model_compare_hash data salt :
  model_compare data (model_hash data salt) = true.
Proof. apply prefix_append. Qed.

Lemma model_compare_other data data' salt :
  substring 0 72 data' <> substring 0 72 data ->
  model_compare data' (model_hash data salt) = false.
Proof.
  intros Hne. unfold model_compare, model_hash, model_digest.
  destruct (prefix _ _) eqn:E; [|reflexivity].
  rewrite append_assoc in E. apply prefix_unary in E as [L E].
  now apply prefix_same_length in E.
Qed.

Lemma model_compare_rehash data data' salt :
  model_compare data' (model_hash data salt)
  = String.eqb (model_hash data' salt) (model_hash data salt).
Proof.
  destruct (string_dec (substring 0 72 data') (substring 0 72 data))
    as [E|N].
  - assert (H : model_hash data' salt = model_hash data salt)
      by (unfold model_hash, model_digest; now rewrite E).
    rewrite H, String.eqb_refl, <- H. apply model_compare_hash.
  - rewrite (model_compare_other _ _ salt N). symmetry.
    apply String.eqb_neq. intros H.
    pose proof (model_compare_hash data' salt) as T.
    rewrite H, (model_compare_other _ _ salt N) in T. discriminate T.
Qed.

Lemma model_72 data salt :
  model_hash data salt = model_hash (substring 0 72 data) salt.
Proof. unfold model_hash, model_digest. now rewrite substring_idem. Qed.

Lemma model_hash_nonempty data salt : model_hash data salt <> "".
Proof.
  unfold model_hash, model_digest. rewrite append_assoc. apply unary_nonempty.
Qed.

#[local] Instance ModelBcrypt : Bcrypt := {|
  bcrypt_hash := model_hash;
  bcrypt_compare := model_compare;
  bcrypt_compare_hash := model_compare_hash;
  bcrypt_compare_rehash := model_compare_rehash;
  bcrypt_72 := model_72;
  bcrypt_hash_nonempty := model_hash_nonempty
|}.

Lemma model_cipher_nonempty (key iv plain : string) :
  model_cipher key iv plain <> "".
Proof. discriminate. Qed.

#[local] Instance ModelCrypto : NodeCrypto := {|
  aes_256_cbc := model_cipher;
  aes_256_cbc_decipher := model_decipher;
  decipher_cipher := fun _ _ _ => eq_refl;
  cipher_nonempty := model_cipher_nonempty;
  base64 := fun bytes => bytes;
  base64_decode := fun bytes => bytes;
  base64_decode_encode := fun _ => eq_refl;
  base64_nonempty := fun _ H => H
|}.

(** ** Facts about the two SQL statements *)

Lemma sql_select_In (u : string) (t : Table) (r : Row) :
  In r (sql_select u t) <-> In r t /\ username r = u.
Proof.
  unfold sql_select. rewrite filter_In. now rewrite String.eqb_eq.
Qed.

Lemma sql_select_head (u : string) (t : Table) (r : Row) (rs : list Row) :
  sql_select u t = r :: rs -> In r t /\ username r = u.
Proof. intros E. apply sql_select_In. rewrite E. now left. Qed.

Lemma sql_select_nil (u : string) (t : Table) :
  sql_select u t = [] <-> ~ In u (map username t).
Proof.
  split.
  - intros E Hin. apply in_map_iff in Hin as [r [Hu Hr]].
    assert (H : In r (sql_select u t)) by now apply sql_select_In.
    now rewrite E in H.
  - intros Hn. destruct (sql_select u t) as [|r rs] eqn:E; [reflexivity|].
    apply sql_select_head in E as [Hr Hu]. elim Hn.
    apply in_map_iff. now exists r.
Qed.

Lemma sql_select_update (pw u : string) (t : Table) :
  sql_select u (sql_update_password pw u t)
  = map (set_password pw) (sql_select u t).
Proof.
  unfold sql_select, sql_update_password.
  induction t as [|r t IH]; simpl; [reflexivity|].
  destruct (String.eqb (username r) u) eqn:E; simpl; rewrite E; simpl;
    now rewrite IH.
Qed.

Lemma sql_update_other (pw u : string) (t : Table) (i : nat) (r : Row) :
  nth_error t i = Some r -> username r <> u ->
  nth_error (sql_update_password pw u t) i = Some r.
Proof.
  intros Hi Hu. unfold sql_update_password.
  rewrite nth_error_map, Hi. simpl.
  apply String.eqb_neq in Hu. now rewrite Hu.
Qed.

(** Under the [UNIQUE] constraint the row a lookup returns is the only one
    carrying that username. *)
Lemma unique_select (u : string) (t : Table) (user r : Row) (rows : list Row) :
  unique_usernames t -> sql_select u t = user :: rows ->
  In r t -> username r = u -> r = user.
Proof.
  unfold unique_usernames, sql_select.
  induction t as [|a t IH]; simpl; intros Hnd Hs Hin Hu; [contradiction|].
  inversion Hnd as [|x xs Hnotin Hnd']; subst x xs.
  destruct (String.eqb (username a) u) eqn:E.
  - apply String.eqb_eq in E. injection Hs as Ha _. subst user.
    destruct Hin as [->|Hin]; [reflexivity|].
    elim Hnotin. apply in_map_iff. exists r. split; [congruence | exact Hin].
  - apply String.eqb_neq in E.
    destruct Hin as [->|Hin]; [contradiction|]. now apply IH.
Qed.

(** ** Running the callbacks symbolically *)

Ltac unfold_async :=
  cbv [CustomAuth.authenticate CustomAuth.users CustomAuth.hashPassword
       CustomAuth.comparePassword CustomAuth.logError
       AesPool.authenticate AesPool.users AesPool.encrypt
       AesClient.authenticate AesClient.users AesClient.encrypt AesClient.resolve
       async_function new_Promise try_catch bind ret throw
       external console_error query_select query_select_info
       query_update_password bcrypt_genSalt draw_salt bcrypt_hash_call
       bcrypt_compare_call set_faults set_table quiet Granted Denied
       table faults rng drawn console] in *.

(** Case split on the next scheduled outcome, discarding the failures a
    [quiet] hypothesis rules out. *)
Ltac split_faults :=
  repeat match goal with
  | H : forallb negb (true :: _) = true |- _ => discriminate H
  | H : forallb negb (false :: _) = true |- _ => simpl in H
  | |- context [match ?fs with [] => _ | _ :: _ => _ end] =>
      is_var fs; destruct fs as [|[|] ?]; cbv beta iota
  end.

Ltac run :=
  unfold_async;
  repeat first
    [ progress split_faults
    | progress cbv beta iota
    | rewrite sql_select_update
    | match goal with
      | H : sql_select ?u ?t = _ |- context [sql_select ?u ?t] => rewrite H
      | H : sql_select_info ?u ?t = _ |- context [sql_select_info ?u ?t] =>
          rewrite H
      | H : js_not ?v = _ |- context [js_not ?v] => rewrite H
      | H : password ?x = _ |- context [password ?x] => rewrite H
      | H : bcrypt_compare ?a ?b = _ |- context [bcrypt_compare ?a ?b] =>
          rewrite H
      | H : js_strict_eq ?a ?b = _ |- context [js_strict_eq ?a ?b] =>
          rewrite H
      end
    | progress cbn [map fst snd username password permissions set_password
                    ui_username ui_permissions] ].

Section Callbacks.
Context {B : Bcrypt} {C : NodeCrypto}.
Variables (cfg : sqltext) (key iv : string).

(** *** What the store can look like afterwards *)

Lemma custom_writes u p w :
  writes_at_most_first_use u w (snd (CustomAuth.authenticate cfg u p w)).
Proof.
  destruct w as [t fs r d c]. unfold writes_at_most_first_use.
  destruct (sql_select u t) as [|user rows] eqn:Hs.
  - left. run; reflexivity.
  - destruct (js_not (password user)) eqn:Hn.
    + run; try (left; reflexivity); right; do 3 eexists; repeat split; eauto.
    + left. destruct (password user) as [h|] eqn:Hp; [|discriminate].
      run; try reflexivity; destruct (bcrypt_compare _ _); reflexivity.
Qed.

Lemma pool_writes u p w :
  writes_at_most_first_use u w (snd (AesPool.authenticate key iv u p w)).
Proof.
  destruct w as [t fs r d c]. unfold writes_at_most_first_use.
  destruct (sql_select u t) as [|user rows] eqn:Hs.
  - left. run; reflexivity.
  - destruct (js_not (password user)) eqn:Hn.
    + run; try (left; reflexivity); right; do 3 eexists; repeat split; eauto.
    + left. run; try reflexivity; destruct (js_strict_eq _ _); reflexivity.
Qed.

Lemma client_writes u p w :
  writes_at_most_first_use u w (snd (AesClient.authenticate key iv u p w)).
Proof.
  destruct w as [t fs r d c]. unfold writes_at_most_first_use.
  destruct (sql_select u t) as [|user rows] eqn:Hs.
  - left. run; reflexivity.
  - destruct (js_not (password user)) eqn:Hn.
    + run; try (left; reflexivity); right; do 3 eexists; repeat split; eauto.
    + left. run; try reflexivity; destruct (js_strict_eq _ _); reflexivity.
Qed.

(** A lookup that finds a truthy password rules the first-use write out. *)
Lemma no_write_when_set u w w' user rows :
  writes_at_most_first_use u w w' ->
  sql_select u (table w) = user :: rows ->
  js_not (password user) = false ->
  table w' = table w.
Proof.
  intros [E|(user' & rows' & secret & Hs & Hn & _)] Hsel Hset; [exact E|].
  rewrite Hsel in Hs. injection Hs as <- _. congruence.
Qed.

(** With unique usernames, rows whose password is truthy survive. *)
Lemma set_rows_survive u w w' i r :
  writes_at_most_first_use u w w' ->
  unique_usernames (table w) ->
  nth_error (table w) i = Some r ->
  js_not (password r) = false ->
  nth_error (table w') i = Some r.
Proof.
  intros [E|(user & rows & secret & Hs & Hn & E)] Hu Hi Hset; rewrite E.
  - exact Hi.
  - apply sql_update_other; [exact Hi|].
    intros Hname.
    assert (r = user) by
      (eapply unique_select; eauto using nth_error_In).
    congruence.
Qed.

(** *** Runs without failures *)

Lemma truthy_string (h : string) : h <> "" -> js_not (Some h) = false.
Proof. intros H. simpl. now apply String.eqb_neq. Qed.

Lemma custom_first_use u p w user rows :
  quiet w -> sql_select u (table w) = user :: rows ->
  js_not (password user) = true ->
  fst (CustomAuth.authenticate cfg u p w) = Granted u (permissions user) /\
  table (snd (CustomAuth.authenticate cfg u p w))
  = sql_update_password
      (bcrypt_hash (p ++ CustomAuth.STATIC_SALT cfg)
                   (rng w CustomAuth.SALT_ROUNDS (drawn w))) u (table w) /\
  quiet (snd (CustomAuth.authenticate cfg u p w)).
Proof.
  destruct w as [t fs r d c]. intros Q Hs Hn.
  destruct (sql_select_head _ _ Hs) as [_ Hu].
  run; rewrite Hu; auto.
Qed.

Lemma custom_check u p w user rows h :
  quiet w -> sql_select u (table w) = user :: rows ->
  password user = Some h -> h <> "" ->
  fst (CustomAuth.authenticate cfg u p w)
  = (if bcrypt_compare (p ++ CustomAuth.STATIC_SALT cfg) h
     then Granted u (permissions user) else Denied) /\
  table (snd (CustomAuth.authenticate cfg u p w)) = table w /\
  quiet (snd (CustomAuth.authenticate cfg u p w)).
Proof.
  destruct w as [t fs r d c]. intros Q Hs Hp Hh.
  destruct (sql_select_head _ _ Hs) as [_ Hu].
  assert (Hn : js_not (password user) = false)
    by (rewrite Hp; now apply truthy_string).
  destruct (bcrypt_compare (p ++ CustomAuth.STATIC_SALT cfg) h) eqn:E;
    run; rewrite ?Hu; auto.
Qed.

Lemma pool_first_use u p w user rows :
  quiet w -> sql_select u (table w) = user :: rows ->
  js_not (password user) = true ->
  fst (AesPool.authenticate key iv u p w) = Granted u (permissions user) /\
  table (snd (AesPool.authenticate key iv u p w))
  = sql_update_password (base64 (aes_256_cbc key iv p)) u (table w) /\
  quiet (snd (AesPool.authenticate key iv u p w)).
Proof.
  destruct w as [t fs r d c]. intros Q Hs Hn.
  destruct (sql_select_head _ _ Hs) as [_ Hu].
  run; rewrite Hu; auto.
Qed.

Lemma pool_check u p w user rows :
  quiet w -> sql_select u (table w) = user :: rows ->
  js_not (password user) = false ->
  fst (AesPool.authenticate key iv u p w)
  = (if js_strict_eq (password user) (base64 (aes_256_cbc key iv p))
     then Granted u (permissions user) else Denied) /\
  table (snd (AesPool.authenticate key iv u p w)) = table w /\
  quiet (snd (AesPool.authenticate key iv u p w)).
Proof.
  destruct w as [t fs r d c]. intros Q Hs Hn.
  destruct (sql_select_head _ _ Hs) as [_ Hu].
  destruct (js_strict_eq (password user) (base64 (aes_256_cbc key iv p)))
    eqn:E; run; rewrite ?Hu; auto.
Qed.

(** The hand-built promise resolves exactly as the [async] one; only the
    text printed on failure differs. *)
Lemma client_as_pool u p w :
  fst (AesClient.authenticate key iv u p w)
  = fst (AesPool.authenticate key iv u p w) /\
  table (snd (AesClient.authenticate key iv u p w))
  = table (snd (AesPool.authenticate key iv u p w)) /\
  faults (snd (AesClient.authenticate key iv u p w))
  = faults (snd (AesPool.authenticate key iv u p w)).
Proof.
  destruct w as [t fs r d c].
  destruct (sql_select u t) as [|user rows] eqn:Hs.
  - run; auto.
  - destruct (js_not (password user)) eqn:Hn.
    + run; auto.
    + destruct (js_strict_eq (password user) (base64 (aes_256_cbc key iv p)))
        eqn:E; run; auto.
Qed.

(** *** Runs with arbitrary failures *)

Lemma custom_absent u p w :
  sql_select u (table w) = [] ->
  fst (CustomAuth.authenticate cfg u p w) = Denied /\
  fst (CustomAuth.users u w) = Resolved None.
Proof.
  destruct w as [t fs r d c]. intros Hs.
  split; run; unfold sql_select_info; rewrite ?Hs; reflexivity.
Qed.

Lemma pool_absent u p w :
  sql_select u (table w) = [] ->
  fst (AesPool.authenticate key iv u p w) = Denied /\
  fst (AesPool.users u w) = Resolved None.
Proof.
  destruct w as [t fs r d c]. intros Hs.
  split; run; unfold sql_select_info; rewrite ?Hs; reflexivity.
Qed.

Lemma client_absent u p w :
  sql_select u (table w) = [] ->
  fst (AesClient.authenticate key iv u p w) = Denied /\
  fst (AesClient.users u w) = Resolved None.
Proof.
  destruct w as [t fs r d c]. intros Hs.
  split; run; unfold sql_select_info; rewrite ?Hs; reflexivity.
Qed.

Lemma custom_mismatch u p w user rows h :
  sql_select u (table w) = user :: rows ->
  password user = Some h -> h <> "" ->
  bcrypt_compare (p ++ CustomAuth.STATIC_SALT cfg) h = false ->
  fst (CustomAuth.authenticate cfg u p w) = Denied.
Proof.
  destruct w as [t fs r d c]. intros Hs Hp Hh E.
  assert (Hn : js_not (password user) = false)
    by (rewrite Hp; now apply truthy_string).
  run; reflexivity.
Qed.

Lemma pool_mismatch u p w user rows :
  sql_select u (table w) = user :: rows ->
  js_not (password user) = false ->
  js_strict_eq (password user) (base64 (aes_256_cbc key iv p)) = false ->
  fst (AesPool.authenticate key iv u p w) = Denied.
Proof.
  destruct w as [t fs r d c]. intros Hs Hn E.
  run; reflexivity.
Qed.

(** The schedule prefix a run used is a run of successes, possibly ended by
    one failure; at most five external calls are made. *)
Ltac used_prefix tac :=
  first
    [ solve [exists (@nil bool); tac]
    | solve [exists [true]; tac]
    | solve [exists [false]; tac]
    | solve [exists [false; true]; tac]
    | solve [exists [false; false]; tac]
    | solve [exists [false; false; true]; tac]
    | solve [exists [false; false; false]; tac]
    | solve [exists [false; false; false; true]; tac]
    | solve [exists [false; false; false; false]; tac]
    | solve [exists [false; false; false; false; true]; tac]
    | solve [exists [false; false; false; false; false]; tac] ].

Ltac fail_closed_case :=
  eexists;
  used_prefix ltac:(split; [reflexivity
                    | split; [reflexivity
                    | simpl; intuition (discriminate || auto)]]).

Lemma custom_fail_closed u p : fail_closed (CustomAuth.authenticate cfg u p).
Proof.
  intros [t fs r d c].
  destruct (sql_select u t) as [|user rows] eqn:Hs.
  - run; fail_closed_case.
  - destruct (js_not (password user)) eqn:Hn.
    + run; fail_closed_case.
    + destruct (password user) as [h|] eqn:Hp; [|discriminate].
      destruct (bcrypt_compare (p ++ CustomAuth.STATIC_SALT cfg) h) eqn:E;
        run; fail_closed_case.
Qed.

Lemma pool_fail_closed u p : fail_closed (AesPool.authenticate key iv u p).
Proof.
  intros [t fs r d c].
  destruct (sql_select u t) as [|user rows] eqn:Hs.
  - run; fail_closed_case.
  - destruct (js_not (password user)) eqn:Hn.
    + run; fail_closed_case.
    + destruct (js_strict_eq (password user) (base64 (aes_256_cbc key iv p)))
        eqn:E; run; fail_closed_case.
Qed.

Lemma client_fail_closed u p : fail_closed (AesClient.authenticate key iv u p).
Proof.
  intros [t fs r d c].
  destruct (sql_select u t) as [|user rows] eqn:Hs.
  - run; fail_closed_case.
  - destruct (js_not (password user)) eqn:Hn.
    + run; fail_closed_case.
    + destruct (js_strict_eq (password user) (base64 (aes_256_cbc key iv p)))
        eqn:E; run; fail_closed_case.
Qed.

Lemma custom_users_fail_closed u : fail_closed (CustomAuth.users u).
Proof.
  intros [t fs r d c].
  destruct (sql_select_info u t) eqn:E; run; fail_closed_case.
Qed.

Lemma client_users_fail_closed u : fail_closed (AesClient.users u).
Proof.
  intros [t fs r d c].
  destruct (sql_select_info u t) eqn:E; run; fail_closed_case.
Qed.

Lemma pool_users_fail_closed u : fail_closed (AesPool.users u).
Proof.
  intros [t fs r d c].
  destruct (sql_select_info u t) eqn:E; run; fail_closed_case.
Qed.

(** *** [users] *)

Lemma users_frame u w :
  table (snd (CustomAuth.users u w)) = table w /\
  table (snd (AesPool.users u w)) = table w /\
  table (snd (AesClient.users u w)) = table w.
Proof.
  destruct w as [t fs r d c].
  destruct (sql_select_info u t) eqn:E; repeat split; run; reflexivity.
Qed.

Lemma users_quiet u w :
  quiet w ->
  let found :=
    match sql_select u (table w) with
    | user :: _ => Some (mkUser u (permissions user))
    | [] => None
    end in
  fst (CustomAuth.users u w) = Resolved found /\
  fst (AesPool.users u w) = Resolved found /\
  fst (AesClient.users u w) = Resolved found.
Proof.
  destruct w as [t fs r d c]. intros Q.
  destruct (sql_select u t) as [|user rows] eqn:Hs; cbv zeta;
    [| destruct (sql_select_head _ _ Hs) as [_ Hu] ];
    repeat split; run; unfold sql_select_info; rewrite Hs; simpl;
    rewrite ?Hu; reflexivity.
Qed.

(** *** Same store, same schedule *)

Lemma custom_deterministic u p w1 w2 :
  table w1 = table w2 -> faults w1 = faults w2 ->
  fst (CustomAuth.authenticate cfg u p w1)
  = fst (CustomAuth.authenticate cfg u p w2) /\
  faults (snd (CustomAuth.authenticate cfg u p w1))
  = faults (snd (CustomAuth.authenticate cfg u p w2)) /\
  (rng w1 CustomAuth.SALT_ROUNDS (drawn w1)
   = rng w2 CustomAuth.SALT_ROUNDS (drawn w2) ->
   table (snd (CustomAuth.authenticate cfg u p w1))
   = table (snd (CustomAuth.authenticate cfg u p w2))).
Proof.
  destruct w1 as [t fs r1 d1 c1], w2 as [t2 fs2 r2 d2 c2]; simpl.
  intros <- <-.
  destruct (sql_select u t) as [|user rows] eqn:Hs.
  - run; auto.
  - destruct (js_not (password user)) eqn:Hn.
    + run; repeat split; auto; intros ->; reflexivity.
    + destruct (password user) as [h|] eqn:Hp; [|discriminate].
      destruct (bcrypt_compare (p ++ CustomAuth.STATIC_SALT cfg) h) eqn:E;
        run; auto.
Qed.

Lemma pool_deterministic u p w1 w2 :
  table w1 = table w2 -> faults w1 = faults w2 ->
  fst (AesPool.authenticate key iv u p w1)
  = fst (AesPool.authenticate key iv u p w2) /\
  faults (snd (AesPool.authenticate key iv u p w1))
  = faults (snd (AesPool.authenticate key iv u p w2)) /\
  table (snd (AesPool.authenticate key iv u p w1))
  = table (snd (AesPool.authenticate key iv u p w2)).
Proof.
  destruct w1 as [t fs r1 d1 c1], w2 as [t2 fs2 r2 d2 c2]; simpl.
  intros <- <-.
  destruct (sql_select u t) as [|user rows] eqn:Hs.
  - run; auto.
  - destruct (js_not (password user)) eqn:Hn.
    + run; auto.
    + destruct (js_strict_eq (password user) (base64 (aes_256_cbc key iv p)))
        eqn:E; run; auto.
Qed.

(** *** Derivation and verification *)

Lemma hashPassword_quiet c w :
  quiet w ->
  exists w', CustomAuth.hashPassword cfg c w
             = (inr (bcrypt_hash (c ++ CustomAuth.STATIC_SALT cfg)
                        (rng w CustomAuth.SALT_ROUNDS (drawn w))), w').
Proof. destruct w as [t fs r d c0]. intros Q. run; eexists; reflexivity. Qed.

Lemma comparePassword_quiet c h w :
  quiet w ->
  fst (CustomAuth.comparePassword cfg c (Some h) w)
  = inr (bcrypt_compare (c ++ CustomAuth.STATIC_SALT cfg) h).
Proof. destruct w as [t fs r d c0]. intros Q. run; reflexivity. Qed.

Lemma encrypt_quiet c w :
  quiet w ->
  exists w', AesPool.encrypt c key iv w
             = (inr (base64 (aes_256_cbc key iv c)), w').
Proof. destruct w as [t fs r d c0]. intros Q. run; eexists; reflexivity. Qed.

Lemma encrypt_injective c c' :
  base64 (aes_256_cbc key iv c) = base64 (aes_256_cbc key iv c') -> c = c'.
Proof.
  intros E. apply (f_equal base64_decode) in E.
  rewrite !base64_decode_encode in E.
  apply (f_equal (aes_256_cbc_decipher key iv)) in E.
  now rewrite !decipher_cipher in E.
Qed.

Lemma encrypt_truthy c : base64 (aes_256_cbc key iv c) <> "".
Proof. apply base64_nonempty, cipher_nonempty. Qed.

(** A candidate is accepted exactly when it hashes to the stored digest. *)
Lemma bcrypt_compare_differs data data' salt :
  bcrypt_hash data' salt <> bcrypt_hash data salt ->
  bcrypt_compare data' (bcrypt_hash data salt) = false.
Proof.
  intros N. rewrite bcrypt_compare_rehash. now apply String.eqb_neq.
Qed.

Lemma bcrypt_compare_same data data' salt :
  bcrypt_hash data' salt = bcrypt_hash data salt ->
  bcrypt_compare data' (bcrypt_hash data salt) = true.
Proof.
  intros E. rewrite bcrypt_compare_rehash, E. apply String.eqb_refl.
Qed.

(** Passwords that agree on the 72 bytes bcrypt reads are interchangeable. *)
Lemma bcrypt_same_prefix_accepts data data' salt :
  substring 0 72 data' = substring 0 72 data ->
  bcrypt_compare data' (bcrypt_hash data salt) = true.
Proof.
  intros E. rewrite (bcrypt_72 data), <- E, <- bcrypt_72.
  apply bcrypt_compare_hash.
Qed.

(** *** Consequences that hold for every implementation of the interfaces *)

(** A candidate whose salted form shares the 72 significant bytes with the
    bound password is granted. *)
Lemma same_prefix_password_granted u pw1 pw2 w user rows salt :
  quiet w -> sql_select u (table w) = user :: rows ->
  password user
  = Some (bcrypt_hash (pw1 ++ CustomAuth.STATIC_SALT cfg) salt) ->
  substring 0 72 (pw2 ++ CustomAuth.STATIC_SALT cfg)
  = substring 0 72 (pw1 ++ CustomAuth.STATIC_SALT cfg) ->
  fst (CustomAuth.authenticate cfg u pw2 w) = Granted u (permissions user).
Proof.
  intros Q Hs Hp E.
  destruct (custom_check u pw2 Q Hs Hp (bcrypt_hash_nonempty _ _))
    as (Ho & _).
  now rewrite bcrypt_same_prefix_accepts in Ho.
Qed.

(** A password column holding the empty string is bound afresh. *)
Lemma blank_password_is_rebound u p w user rows :
  quiet w -> sql_select u (table w) = user :: rows ->
  password user = Some "" ->
  fst (CustomAuth.authenticate cfg u p w) = Granted u (permissions user) /\
  fst (AesPool.authenticate key iv u p w) = Granted u (permissions user) /\
  hd_error (sql_select u (table (snd (AesPool.authenticate key iv u p w))))
  = Some (set_password (base64 (aes_256_cbc key iv p)) user).
Proof.
  intros Q Hs Hp.
  assert (Hn : js_not (password user) = true) by now rewrite Hp.
  destruct (custom_first_use u p Q Hs Hn) as (Hc & _).
  destruct (pool_first_use u p Q Hs Hn) as (Ha & Ht & _).
  rewrite Hc, Ha, Ht, sql_select_update, Hs. auto.
Qed.

End Callbacks.

Lemma calls_steady {A} (f : World -> Outcome A * World) (o : Outcome A)
      (t : Table) (n : nat) :
  (forall w, quiet w -> table w = t ->
             fst (f w) = o /\ table (snd (f w)) = t /\ quiet (snd (f w))) ->
  forall w, quiet w -> table w = t ->
            fst (calls f n w) = repeat o n /\ table (snd (calls f n w)) = t.
Proof.
  intros Hf. induction n as [|n IH]; intros w Q Ht; simpl; [now split|].
  destruct (Hf w Q Ht) as (Ho & Ht' & Q').
  destruct (f w) as [o1 w1]; simpl in *.
  destruct (IH w1 Q' Ht') as [Hos Hts].
  destruct (calls f n w1) as [os w2]; simpl in *.
  split; congruence.
Qed.

Unset Implicit Arguments.

(** ** The specification's concrete scenario

    [alice] has permission ["read"] and no password: ["hunter2"] is granted
    and bound, ["wrong"] is then denied, and the unknown [bob] is denied. *)
Example alice_scenario_bcrypt :
  let first := CustomAuth.authenticate (B:=ModelBcrypt) None
                 "alice" "hunter2" alice_fresh in
  fst first = Granted "alice" (Some "read") /\
  table (snd first) = table alice_bound_bcrypt /\
  fst (CustomAuth.authenticate (B:=ModelBcrypt) None "alice" "wrong"
         (snd first)) = Denied /\
  fst (CustomAuth.authenticate (B:=ModelBcrypt) None "bob" "x" (snd first))
  = Denied.
Proof. vm_compute. repeat split. Qed.

Example alice_scenario_aes :
  let first := AesClient.authenticate (C:=ModelCrypto) "k" "iv"
                 "alice" "hunter2" alice_fresh in
  fst first = Granted "alice" (Some "read") /\
  table (snd first) = table alice_bound_aes /\
  fst (AesClient.authenticate (C:=ModelCrypto) "k" "iv" "alice" "wrong"
         (snd first)) = Denied /\
  fst (AesClient.authenticate (C:=ModelCrypto) "k" "iv" "bob" "x" (snd first))
  = Denied.
Proof. vm_compute. repeat split. Qed.

(** A failing [UPDATE] during first use resolves to [null] and leaves
    [alice] without a password. *)
Example alice_update_fails :
  let w := mkWorld (table alice_fresh) [false; false; false; true]
                   model_rng 0 [] in
  CustomAuth.authenticate (B:=ModelBcrypt) None "alice" "hunter2" w
  = (Denied,
     mkWorld (table alice_fresh) [] model_rng 1
             ["Error during authentication:"]).
Proof. vm_compute. reflexivity. Qed.

(** ** The specification's properties *)

(** C1. When the looked-up record has no password yet ([NULL]) and no
    external call fails, [authenticate] answers [Granted] with the username
    and the record's permissions, whatever the password (the empty one
    included), and the table afterwards is the old one with the secret derived
    from that password written into the row of that username: the bcrypt
    digest of password plus static salt under the freshly drawn salt in
    [customAuth.js], the base64 AES ciphertext in the cipher variant. *)
Theorem first_use_binds_password
  {B : Bcrypt} {C : NodeCrypto} (cfg : sqltext) (key iv u p : string)
  (w : World) (user : Row) (rows : list Row) :
  quiet w ->
  sql_select u (table w) = user :: rows ->
  password user = None ->
  (let secret := bcrypt_hash (p ++ CustomAuth.STATIC_SALT cfg)
                             (rng w CustomAuth.SALT_ROUNDS (drawn w)) in
   let done := CustomAuth.authenticate cfg u p w in
   fst done = Granted u (permissions user) /\
   table (snd done) = sql_update_password secret u (table w) /\
   hd_error (sql_select u (table (snd done)))
   = Some (set_password secret user))
  /\
  (let secret := base64 (aes_256_cbc key iv p) in
   let done := AesPool.authenticate key iv u p w in
   fst done = Granted u (permissions user) /\
   table (snd done) = sql_update_password secret u (table w) /\
   hd_error (sql_select u (table (snd done)))
   = Some (set_password secret user)).
Proof.
  intros Q Hs Hp.
  assert (Hn : js_not (password user) = true) by now rewrite Hp.
  split; cbv zeta.
  - destruct (custom_first_use cfg u p Q Hs Hn) as (Ho & Ht & _).
    rewrite Ho, Ht, sql_select_update, Hs. auto.
  - destruct (pool_first_use key iv u p Q Hs Hn) as (Ho & Ht & _).
    rewrite Ho, Ht, sql_select_update, Hs. auto.
Qed.

Lemma first_use_binds_password_witness :
  quiet alice_fresh /\
  fst (CustomAuth.authenticate (B:=ModelBcrypt) None "alice" "" alice_fresh)
  = Granted "alice" (Some "read") /\
  fst (AesPool.authenticate (C:=ModelCrypto) "k" "iv" "alice" "" alice_fresh)
  = Granted "alice" (Some "read").
Proof.
  pose proof (@first_use_binds_password ModelBcrypt ModelCrypto None "k" "iv"
                "alice" "" alice_fresh
                (mkRow 1 "alice" None (Some "read")) []
                eq_refl eq_refl eq_refl) as [H1 H2].
  split; [reflexivity|]. split; [apply H1 | apply H2].
Defined.

(** C2. For a username no row carries, [authenticate] answers [Denied] for
    every password and [users] answers [null], in every variant and whatever
    the external calls do. *)
Theorem unknown_user_denied
  {B : Bcrypt} {C : NodeCrypto} (cfg : sqltext) (key iv u p : string)
  (w : World) :
  ~ In u (map username (table w)) ->
  (fst (CustomAuth.authenticate cfg u p w) = Denied /\
   fst (CustomAuth.users u w) = Resolved None) /\
  (fst (AesPool.authenticate key iv u p w) = Denied /\
   fst (AesPool.users u w) = Resolved None) /\
  (fst (AesClient.authenticate key iv u p w) = Denied /\
   fst (AesClient.users u w) = Resolved None).
Proof.
  intros Hu. apply sql_select_nil in Hu.
  repeat split.
  all: first [ now apply custom_absent | now apply pool_absent
             | now apply (client_absent key iv) ].
Qed.

Lemma unknown_user_denied_witness :
  ~ In "bob" (map username (table alice_fresh)) /\
  fst (CustomAuth.authenticate (B:=ModelBcrypt) None "bob" "x" alice_fresh)
  = Denied /\
  fst (CustomAuth.users "bob" alice_fresh) = Resolved None.
Proof.
  assert (H : ~ In "bob" (map username (table alice_fresh)))
    by (simpl; intros [E|[]]; discriminate E).
  split; [exact H|].
  exact (proj1 (@unknown_user_denied ModelBcrypt ModelCrypto None "k" "iv"
                  "bob" "x" alice_fresh H)).
Defined.

(** C3. When the looked-up record's password was derived from [p] (the
    bcrypt digest of [p] plus static salt under any salt, or the ciphertext of
    [p]) and no external call fails, [authenticate u p] answers [Granted]
    with the username and the stored permissions, and so does each of [n]
    calls in a row, none of which changes the table. *)
Theorem correct_password_granted
  {B : Bcrypt} {C : NodeCrypto} (cfg : sqltext) (key iv u p : string)
  (n : nat) :
  (forall w user rows salt,
     quiet w ->
     sql_select u (table w) = user :: rows ->
     password user
     = Some (bcrypt_hash (p ++ CustomAuth.STATIC_SALT cfg) salt) ->
     fst (calls (CustomAuth.authenticate cfg u p) n w)
     = repeat (Granted u (permissions user)) n /\
     table (snd (calls (CustomAuth.authenticate cfg u p) n w)) = table w)
  /\
  (forall w user rows,
     quiet w ->
     sql_select u (table w) = user :: rows ->
     password user = Some (base64 (aes_256_cbc key iv p)) ->
     fst (calls (AesPool.authenticate key iv u p) n w)
     = repeat (Granted u (permissions user)) n /\
     table (snd (calls (AesPool.authenticate key iv u p) n w)) = table w).
Proof.
  split.
  - intros w user rows salt Q Hs Hp.
    apply calls_steady; [|exact Q|reflexivity].
    intros w' Q' Ht. rewrite <- Ht in Hs.
    destruct (custom_check cfg u p Q' Hs Hp (bcrypt_hash_nonempty _ _))
      as (Ho & Ht' & Q'').
    rewrite bcrypt_compare_hash in Ho. rewrite Ho, Ht', Ht. auto.
  - intros w user rows Q Hs Hp.
    apply calls_steady; [|exact Q|reflexivity].
    intros w' Q' Ht. rewrite <- Ht in Hs.
    assert (Hn : js_not (password user) = false)
      by (rewrite Hp; apply truthy_string, encrypt_truthy).
    destruct (pool_check key iv u p Q' Hs Hn) as (Ho & Ht' & Q'').
    rewrite Hp in Ho. simpl in Ho. rewrite String.eqb_refl in Ho.
    rewrite Ho, Ht', Ht. auto.
Qed.

Lemma correct_password_granted_witness :
  fst (calls (CustomAuth.authenticate (B:=ModelBcrypt) None "alice" "hunter2")
             3 alice_bound_bcrypt)
  = repeat (Granted "alice" (Some "read")) 3 /\
  fst (calls (AesPool.authenticate (C:=ModelCrypto) "k" "iv" "alice" "hunter2")
             3 alice_bound_aes)
  = repeat (Granted "alice" (Some "read")) 3.
Proof.
  pose proof (@correct_password_granted ModelBcrypt ModelCrypto None "k" "iv"
                "alice" "hunter2" 3) as [H1 H2].
  split.
  - refine (proj1 (H1 alice_bound_bcrypt
             (mkRow 1 "alice"
                (Some (model_hash ("hunter2" ++ "default_salt_value")
                                  (model_rng 10 0)))
                (Some "read")) [] (model_rng 10 0) eq_refl _ eq_refl)).
    reflexivity.
  - refine (proj1 (H2 alice_bound_aes
             (mkRow 1 "alice" (Some (model_cipher "k" "iv" "hunter2"))
                (Some "read")) [] eq_refl _ eq_refl)).
    reflexivity.
Defined.

(** C4, as stated, fails on [customAuth.js]: after [long_x] is bound, the
    different password [long_y] is granted, because the two agree on the 72
    bytes bcrypt reads. *)
Lemma second_long_password_granted :
  long_y <> long_x /\
  let first := CustomAuth.authenticate (B:=ModelBcrypt) None
                 "alice" long_x alice_fresh in
  fst first = Granted "alice" (Some "read") /\
  fst (CustomAuth.authenticate (B:=ModelBcrypt) None "alice" long_y (snd first))
  = Granted "alice" (Some "read").
Proof.
  split; [intros E; apply (f_equal (String.eqb long_y)) in E;
          vm_compute in E; discriminate E|].
  vm_compute. split; reflexivity.
Qed.

(** C4, amended. Once a first-use call has bound [pw1] (no failure during
    that call), a later call on that store never writes to it, whatever its
    password and whatever fails.  In the cipher variant it answers [Denied]
    for every [pw2] other than [pw1].  In [customAuth.js] the stored secret
    is the bcrypt digest of [pw1] plus static salt, and the later call
    answers [Denied] whenever [pw2] plus static salt has another digest
    under the same salt, and [Granted] (absent failures) when it has the
    same digest. *)
Theorem first_password_stays_bound
  {B : Bcrypt} {C : NodeCrypto} (cfg : sqltext) (key iv u pw1 pw2 : string)
  (w : World) (user : Row) (rows : list Row) :
  quiet w ->
  sql_select u (table w) = user :: rows ->
  password user = None ->
  (forall w2,
     table w2 = table (snd (CustomAuth.authenticate cfg u pw1 w)) ->
     let salt := rng w CustomAuth.SALT_ROUNDS (drawn w) in
     let bound := bcrypt_hash (pw1 ++ CustomAuth.STATIC_SALT cfg) salt in
     stored_secret u (table w2) = Some (Some bound) /\
     table (snd (CustomAuth.authenticate cfg u pw2 w2)) = table w2 /\
     (bcrypt_hash (pw2 ++ CustomAuth.STATIC_SALT cfg) salt <> bound ->
      fst (CustomAuth.authenticate cfg u pw2 w2) = Denied) /\
     (quiet w2 ->
      bcrypt_hash (pw2 ++ CustomAuth.STATIC_SALT cfg) salt = bound ->
      fst (CustomAuth.authenticate cfg u pw2 w2)
      = Granted u (permissions user)))
  /\
  (forall w2,
     table w2 = table (snd (AesPool.authenticate key iv u pw1 w)) ->
     table (snd (AesPool.authenticate key iv u pw2 w2)) = table w2 /\
     (pw2 <> pw1 -> fst (AesPool.authenticate key iv u pw2 w2) = Denied)).
Proof.
  intros Q Hs Hp.
  assert (Hn : js_not (password user) = true) by now rewrite Hp.
  split; intros w2 Ht.
  - destruct (custom_first_use cfg u pw1 Q Hs Hn) as (_ & Ht1 & _).
    rewrite Ht1 in Ht. cbv zeta.
    set (salt := rng w CustomAuth.SALT_ROUNDS (drawn w)) in *.
    set (bound := bcrypt_hash (pw1 ++ CustomAuth.STATIC_SALT cfg) salt) in *.
    assert (Hb : bound <> "") by apply bcrypt_hash_nonempty.
    assert (Hs2 : sql_select u (table w2)
                  = set_password bound user :: map (set_password bound) rows)
      by (rewrite Ht, sql_select_update, Hs; reflexivity).
    split; [|split; [|split]].
    + unfold stored_secret. now rewrite Hs2.
    + eapply no_write_when_set;
        [apply custom_writes | exact Hs2 | now apply truthy_string].
    + intros Hne. eapply custom_mismatch;
        [exact Hs2 | reflexivity | exact Hb
        | now apply bcrypt_compare_differs].
    + intros Q2 E.
      destruct (custom_check cfg u pw2 Q2 Hs2 eq_refl Hb) as (Ho & _).
      unfold bound in Ho. rewrite bcrypt_compare_same in Ho by exact E.
      exact Ho.
  - destruct (pool_first_use key iv u pw1 Q Hs Hn) as (_ & Ht1 & _).
    rewrite Ht1 in Ht.
    assert (Hs2 : sql_select u (table w2)
                  = set_password (base64 (aes_256_cbc key iv pw1)) user
                    :: map (set_password (base64 (aes_256_cbc key iv pw1)))
                           rows)
      by (rewrite Ht, sql_select_update, Hs; reflexivity).
    assert (Hset : js_not (password (set_password
                     (base64 (aes_256_cbc key iv pw1)) user)) = false)
      by (apply truthy_string, encrypt_truthy).
    split.
    + eapply no_write_when_set; [apply pool_writes | exact Hs2 | exact Hset].
    + intros Hne. eapply pool_mismatch; [exact Hs2 | exact Hset |].
      simpl. apply String.eqb_neq. intros E.
      apply encrypt_injective in E. congruence.
Qed.

Lemma first_password_stays_bound_witness :
  quiet alice_fresh /\
  fst (CustomAuth.authenticate (B:=ModelBcrypt) None "alice" "wrong"
         alice_bound_bcrypt) = Denied /\
  fst (AesPool.authenticate (C:=ModelCrypto) "k" "iv" "alice" "wrong"
         alice_bound_aes) = Denied.
Proof.
  pose proof (@first_password_stays_bound ModelBcrypt ModelCrypto None
                "k" "iv" "alice" "hunter2" "wrong" alice_fresh
                (mkRow 1 "alice" None (Some "read")) []
                eq_refl eq_refl eq_refl) as [H1 H2].
  split; [reflexivity|]. split.
  - apply (H1 alice_bound_bcrypt eq_refl).
    vm_compute. intros E. discriminate E.
  - apply (H2 alice_bound_aes eq_refl).
    intros E. discriminate E.
Defined.

(** C5, as stated, fails: a password column holding the empty string is
    present in the store, yet [!user.password] takes it for unset and the
    first-use branch overwrites it. *)
Lemma blank_secret_overwritten :
  exists r,
    nth_error (table alice_blank) 0 = Some r /\
    password r <> None /\
    option_map password
      (nth_error (table (snd (CustomAuth.authenticate (B:=ModelBcrypt) None
                                "alice" "hunter2" alice_blank))) 0)
    <> Some (password r).
Proof.
  eexists. split; [reflexivity|]. split; [discriminate|].
  vm_compute. intros E. discriminate E.
Qed.

(** C5, amended. Usernames being unique, every row whose password is set and
    non-empty before a call of [authenticate] is the same row, at the same
    place, after it, for every username, password and failure schedule, in
    every variant. *)
Theorem set_secret_never_overwritten
  {B : Bcrypt} {C : NodeCrypto} (cfg : sqltext) (key iv u p : string)
  (w : World) (i : nat) (r : Row) :
  unique_usernames (table w) ->
  nth_error (table w) i = Some r ->
  js_not (password r) = false ->
  nth_error (table (snd (CustomAuth.authenticate cfg u p w))) i = Some r /\
  nth_error (table (snd (AesPool.authenticate key iv u p w))) i = Some r /\
  nth_error (table (snd (AesClient.authenticate key iv u p w))) i = Some r.
Proof.
  intros Hu Hi Hset. repeat split.
  - eapply set_rows_survive; eauto using custom_writes.
  - eapply set_rows_survive; eauto using pool_writes.
  - eapply set_rows_survive; eauto using client_writes.
Qed.

Lemma set_secret_never_overwritten_witness :
  unique_usernames (table alice_bound_bcrypt) /\
  nth_error (table (snd (CustomAuth.authenticate (B:=ModelBcrypt) None
                           "alice" "wrong" alice_bound_bcrypt))) 0
  = nth_error (table alice_bound_bcrypt) 0.
Proof.
  assert (Hu : unique_usernames (table alice_bound_bcrypt)).
  { unfold unique_usernames. simpl.
    constructor; [intros [] | constructor]. }
  split; [exact Hu|].
  exact (proj1 (@set_secret_never_overwritten ModelBcrypt ModelCrypto None
                  "k" "iv" "alice" "wrong" alice_bound_bcrypt 0 _
                  Hu eq_refl eq_refl)).
Defined.

(** C6. Every call of [authenticate] and of [users], in every variant and
    under every failure schedule, resolves with a value: it is never
    rejected and never left pending; and when any of the external calls it
    made (a query, salt generation, hashing, comparison, encryption) failed,
    that value is [null]. *)
Theorem faults_resolve_to_null
  {B : Bcrypt} {C : NodeCrypto} (cfg : sqltext) (key iv u p : string) :
  (fail_closed (CustomAuth.authenticate cfg u p) /\
   fail_closed (CustomAuth.users u)) /\
  (fail_closed (AesPool.authenticate key iv u p) /\
   fail_closed (AesPool.users u)) /\
  (fail_closed (AesClient.authenticate key iv u p) /\
   fail_closed (AesClient.users u)).
Proof.
  repeat split.
  - apply custom_fail_closed.
  - apply custom_users_fail_closed.
  - apply pool_fail_closed.
  - apply pool_users_fail_closed.
  - apply client_fail_closed.
  - apply client_users_fail_closed.
Qed.

(** C7, as stated, fails for the salted-hash variant: the digest derived
    from [long_x] verifies the different candidate [long_y]. *)
Lemma long_candidate_verifies :
  long_y <> long_x /\
  exists h w',
    CustomAuth.hashPassword (B:=ModelBcrypt) None long_x alice_fresh
    = (inr h, w') /\
    fst (CustomAuth.comparePassword (B:=ModelBcrypt) None long_y (Some h) w')
    = inr true.
Proof.
  split; [intros E; apply (f_equal (String.eqb long_y)) in E;
          vm_compute in E; discriminate E|].
  eexists. eexists. split; vm_compute; reflexivity.
Qed.

(** C7, amended. With no failing call, deriving a secret from [c] and then
    verifying [c] against it succeeds in both variants ([comparePassword]
    on the result of [hashPassword]; re-encryption compared with [===]).
    The cipher variant rejects every candidate [c'] other than [c].  The
    salted-hash variant accepts [c'] exactly when [c'] plus static salt has,
    under the salt of the stored digest, the digest that is stored; it
    therefore accepts every [c'] whose salted form agrees with that of [c]
    on the first 72 bytes. *)
Theorem derive_then_verify
  {B : Bcrypt} {C : NodeCrypto} (cfg : sqltext) (key iv c c' : string)
  (w w' : World) :
  quiet w -> quiet w' ->
  (exists h w1,
     CustomAuth.hashPassword cfg c w = (inr h, w1) /\
     h = bcrypt_hash (c ++ CustomAuth.STATIC_SALT cfg)
           (rng w CustomAuth.SALT_ROUNDS (drawn w)) /\
     fst (CustomAuth.comparePassword cfg c (Some h) w') = inr true /\
     fst (CustomAuth.comparePassword cfg c' (Some h) w')
     = inr (String.eqb
              (bcrypt_hash (c' ++ CustomAuth.STATIC_SALT cfg)
                 (rng w CustomAuth.SALT_ROUNDS (drawn w))) h) /\
     (substring 0 72 (c' ++ CustomAuth.STATIC_SALT cfg)
      = substring 0 72 (c ++ CustomAuth.STATIC_SALT cfg) ->
      fst (CustomAuth.comparePassword cfg c' (Some h) w') = inr true))
  /\
  (exists e w1,
     AesPool.encrypt c key iv w = (inr e, w1) /\
     (exists w2, AesPool.encrypt c key iv w' = (inr e, w2)) /\
     js_strict_eq (Some e) e = true /\
     (c' <> c ->
      exists e' w2, AesPool.encrypt c' key iv w' = (inr e', w2) /\
                    js_strict_eq (Some e) e' = false)).
Proof.
  intros Q Q'. split.
  - destruct (hashPassword_quiet cfg c Q) as [w1 Hh].
    eexists. exists w1. split; [exact Hh|]. split; [reflexivity|].
    rewrite !comparePassword_quiet by exact Q'. split; [|split].
    + now rewrite bcrypt_compare_hash.
    + now rewrite bcrypt_compare_rehash.
    + intros E. now rewrite bcrypt_same_prefix_accepts.
  - destruct (encrypt_quiet key iv c Q) as [w1 He].
    eexists. exists w1. split; [exact He|]. split; [|split].
    + apply encrypt_quiet, Q'.
    + simpl. apply String.eqb_refl.
    + intros Hne. destruct (encrypt_quiet key iv c' Q') as [w2 He'].
      eexists. exists w2. split; [exact He'|].
      simpl. apply String.eqb_neq. intros E.
      apply encrypt_injective in E. congruence.
Qed.

Lemma derive_then_verify_witness :
  quiet alice_fresh /\
  exists h w1,
    CustomAuth.hashPassword (B:=ModelBcrypt) None "hunter2" alice_fresh
    = (inr h, w1) /\
    fst (CustomAuth.comparePassword (B:=ModelBcrypt) None "hunter2" (Some h)
           alice_fresh) = inr true /\
    fst (CustomAuth.comparePassword (B:=ModelBcrypt) None "hunter3" (Some h)
           alice_fresh) = inr false.
Proof.
  split; [reflexivity|].
  destruct (proj1 (@derive_then_verify ModelBcrypt ModelCrypto None "k" "iv"
                     "hunter2" "hunter3" alice_fresh alice_fresh
                     eq_refl eq_refl)) as (h & w1 & Hh & Eh & Hok & Hno & _).
  exists h, w1. split; [exact Hh|]. split; [exact Hok|].
  rewrite Hno, Eh. reflexivity.
Defined.

(** C8. [users] never changes the table, whatever fails; and when its query
    does not fail it answers an object exactly when some row carries the
    username: that object holds the username asked for and permissions
    stored with it, and the answer is [null] when no row carries it. *)
Theorem users_is_a_pure_read (u : string) (w : World) :
  (table (snd (CustomAuth.users u w)) = table w /\
   table (snd (AesPool.users u w)) = table w /\
   table (snd (AesClient.users u w)) = table w) /\
  (quiet w ->
   (In u (map username (table w)) ->
    exists perm,
      In (u, perm) (map (fun r => (username r, permissions r)) (table w)) /\
      fst (CustomAuth.users u w) = Resolved (Some (mkUser u perm)) /\
      fst (AesPool.users u w) = Resolved (Some (mkUser u perm)) /\
      fst (AesClient.users u w) = Resolved (Some (mkUser u perm))) /\
   (~ In u (map username (table w)) ->
    fst (CustomAuth.users u w) = Resolved None /\
    fst (AesPool.users u w) = Resolved None /\
    fst (AesClient.users u w) = Resolved None)).
Proof.
  split; [apply users_frame|].
  intros Q. pose proof (users_quiet u Q) as H. cbv zeta in H.
  split; intros Hin.
  - destruct (sql_select u (table w)) as [|user rows] eqn:Hs.
    + apply sql_select_nil in Hs. contradiction.
    + exists (permissions user). split; [|exact H].
      destruct (sql_select_head _ _ Hs) as [Hr Hu].
      apply in_map_iff. exists user. split; [now rewrite Hu | exact Hr].
  - apply sql_select_nil in Hin. now rewrite Hin in H.
Qed.

Lemma users_is_a_pure_read_witness :
  quiet alice_fresh /\
  fst (CustomAuth.users "alice" alice_fresh)
  = Resolved (Some (mkUser "alice" (Some "read"))) /\
  fst (AesClient.users "bob" alice_fresh) = Resolved None.
Proof.
  pose proof (users_is_a_pure_read "alice" alice_fresh) as [_ Ha].
  pose proof (users_is_a_pure_read "bob" alice_fresh) as [_ Hb].
  split; [reflexivity|]. split.
  - destruct (proj1 (Ha eq_refl) (or_introl eq_refl))
      as (perm & Hperm & Hc & _).
    destruct Hperm as [E|[]]. injection E as <-. exact Hc.
  - apply (proj2 (Hb eq_refl)). simpl. intros [E|[]]. discriminate E.
Defined.

(** C9, as stated, fails on [customAuth.js]: two first-use runs on the same
    table, with the same username and password, neither meeting a failure,
    leave different tables behind, because each stores a digest under its own
    freshly generated salt. *)
Lemma two_runs_store_different_secrets :
  table alice_fresh = table alice_fresh_later /\
  faults alice_fresh = faults alice_fresh_later /\
  table (snd (CustomAuth.authenticate (B:=ModelBcrypt) None
                "alice" "hunter2" alice_fresh))
  <> table (snd (CustomAuth.authenticate (B:=ModelBcrypt) None
                   "alice" "hunter2" alice_fresh_later)).
Proof.
  split; [reflexivity|]. split; [reflexivity|].
  vm_compute. intros E. discriminate E.
Qed.

(** C9, amended. Two runs of [authenticate] on the same table, with the same
    username and password and the same outcomes of their external calls,
    answer the same and make the same number of external calls.  In the
    cipher variant they also leave the same table; in [customAuth.js] they
    leave the same table provided the salt generator hands both the same
    salt. *)
Theorem same_store_same_answer
  {B : Bcrypt} {C : NodeCrypto} (cfg : sqltext) (key iv u p : string)
  (w1 w2 : World) :
  table w1 = table w2 ->
  faults w1 = faults w2 ->
  (fst (CustomAuth.authenticate cfg u p w1)
   = fst (CustomAuth.authenticate cfg u p w2) /\
   faults (snd (CustomAuth.authenticate cfg u p w1))
   = faults (snd (CustomAuth.authenticate cfg u p w2)) /\
   (rng w1 CustomAuth.SALT_ROUNDS (drawn w1)
    = rng w2 CustomAuth.SALT_ROUNDS (drawn w2) ->
    table (snd (CustomAuth.authenticate cfg u p w1))
    = table (snd (CustomAuth.authenticate cfg u p w2))))
  /\
  (fst (AesPool.authenticate key iv u p w1)
   = fst (AesPool.authenticate key iv u p w2) /\
   faults (snd (AesPool.authenticate key iv u p w1))
   = faults (snd (AesPool.authenticate key iv u p w2)) /\
   table (snd (AesPool.authenticate key iv u p w1))
   = table (snd (AesPool.authenticate key iv u p w2))).
Proof.
  intros Ht Hf. split.
  - now apply custom_deterministic.
  - now apply pool_deterministic.
Qed.

Lemma same_store_same_answer_witness :
  table alice_fresh = table alice_fresh_later /\
  fst (CustomAuth.authenticate (B:=ModelBcrypt) None
         "alice" "hunter2" alice_fresh)
  = fst (CustomAuth.authenticate (B:=ModelBcrypt) None
           "alice" "hunter2" alice_fresh_later) /\
  table (snd (AesPool.authenticate (C:=ModelCrypto) "k" "iv"
                "alice" "hunter2" alice_fresh))
  = table (snd (AesPool.authenticate (C:=ModelCrypto) "k" "iv"
                  "alice" "hunter2" alice_fresh_later)).
Proof.
  pose proof (@same_store_same_answer ModelBcrypt ModelCrypto None "k" "iv"
                "alice" "hunter2" alice_fresh alice_fresh_later
                eq_refl eq_refl) as [[H1 _] [_ [_ H2]]].
  split; [reflexivity|]. split; [exact H1 | exact H2].
Defined.

(** C10, as stated, fails: in [customAuth.js] the looked-up record has a
    password, the empty string, and [authenticate] still writes to the
    table. *)
Lemma blank_secret_is_written :
  exists user rows,
    sql_select "alice" (table alice_blank) = user :: rows /\
    password user <> None /\
    table (snd (CustomAuth.authenticate (B:=ModelBcrypt) None
                  "alice" "hunter2" alice_blank))
    <> table alice_blank.
Proof.
  eexists. eexists. split; [reflexivity|]. split; [discriminate|].
  vm_compute. intros E. discriminate E.
Qed.

(** C10, amended. Whatever fails, the table after [authenticate] is the
    table before, or the table before with one first-use [UPDATE] of the
    password column for the given username applied; and when the looked-up
    record's password is set and non-empty it is the table before, on the
    match branch and on the mismatch branch alike. *)
Theorem only_write_is_first_use
  {B : Bcrypt} {C : NodeCrypto} (cfg : sqltext) (key iv u p : string)
  (w : World) :
  (writes_at_most_first_use u w (snd (CustomAuth.authenticate cfg u p w)) /\
   writes_at_most_first_use u w (snd (AesPool.authenticate key iv u p w)))
  /\
  (forall user rows,
     sql_select u (table w) = user :: rows ->
     js_not (password user) = false ->
     table (snd (CustomAuth.authenticate cfg u p w)) = table w /\
     table (snd (AesPool.authenticate key iv u p w)) = table w).
Proof.
  split; [split; [apply custom_writes | apply pool_writes]|].
  intros user rows Hs Hset. split.
  - eapply no_write_when_set; eauto using custom_writes.
  - eapply no_write_when_set; eauto using pool_writes.
Qed.

Lemma only_write_is_first_use_witness :
  table (snd (CustomAuth.authenticate (B:=ModelBcrypt) None
                "alice" "wrong" alice_bound_bcrypt))
  = table alice_bound_bcrypt /\
  table (snd (AesPool.authenticate (C:=ModelCrypto) "k" "iv"
                "alice" "hunter2" alice_bound_aes))
  = table alice_bound_aes.
Proof.
  split.
  - exact (proj1 (proj2 (@only_write_is_first_use ModelBcrypt ModelCrypto
                           None "k" "iv" "alice" "wrong" alice_bound_bcrypt)
                    _ [] eq_refl eq_refl)).
  - exact (proj2 (proj2 (@only_write_is_first_use ModelBcrypt ModelCrypto
                           None "k" "iv" "alice" "hunter2" alice_bound_aes)
                    _ [] eq_refl eq_refl)).
Defined.

(** ** Beyond the specification: more string facts *)

Lemma length_append (a b : string) :
  String.length (a ++ b) = String.length a + String.length b.
Proof. induction a as [|x a IH]; simpl; [reflexivity | now rewrite IH]. Qed.

Lemma length_substring_0 (n : nat) (s : string) :
  String.length (substring 0 n s) = Nat.min n (String.length s).
Proof.
  revert s; induction n as [|n IH]; intros [|c s]; simpl; try reflexivity.
  now rewrite IH.
Qed.

Lemma substring_0_all (n : nat) (s : string) :
  String.length s <= n -> substring 0 n s = s.
Proof.
  revert s; induction n as [|n IH]; intros [|c s]; simpl; intros L;
    try reflexivity; [lia|].
  rewrite IH; [reflexivity | lia].
Qed.

Lemma substring_0_append (n : nat) (s x : string) :
  n <= String.length s -> substring 0 n (s ++ x) = substring 0 n s.
Proof.
  revert s; induction n as [|n IH]; intros [|c s]; simpl; intros L.
  - now destruct x.
  - reflexivity.
  - lia.
  - rewrite IH; [reflexivity | lia].
Qed.

Lemma static_salt_nonempty (cfg : sqltext) : CustomAuth.STATIC_SALT cfg <> "".
Proof.
  unfold CustomAuth.STATIC_SALT, js_or.
  destruct cfg as [s|]; [|discriminate].
  destruct (String.eqb s "") eqn:E; [discriminate|].
  now apply String.eqb_neq.
Qed.

(** From 72 bytes on, the static salt lies beyond what bcrypt reads. *)
Lemma salted_prefix_long (cfg : sqltext) (p : string) :
  72 <= String.length p ->
  substring 0 72 (p ++ CustomAuth.STATIC_SALT cfg) = substring 0 72 p.
Proof. apply substring_0_append. Qed.

(** ** Beyond the specification: more facts about the SQL statements *)

Lemma sql_update_identity (pw u : string) (t : Table) :
  map identity (sql_update_password pw u t) = map identity t.
Proof.
  unfold sql_update_password. rewrite map_map. apply map_ext.
  intros r. now destruct (String.eqb (username r) u).
Qed.

Lemma sql_select_update_other (pw u v : string) (t : Table) :
  u <> v ->
  sql_select v (sql_update_password pw u t) = sql_select v t.
Proof.
  intros Hne. unfold sql_select, sql_update_password.
  induction t as [|r t IH]; simpl; [reflexivity|].
  destruct (String.eqb (username r) u) eqn:E; simpl; rewrite IH;
    [|reflexivity].
  apply String.eqb_eq in E.
  assert (Hv : String.eqb (username r) v = false)
    by (apply String.eqb_neq; congruence).
  now rewrite Hv.
Qed.

(** ** Beyond the specification: running the file without static salt *)

Ltac run_plain :=
  cbv [BcryptPlain.authenticate BcryptPlain.users BcryptPlain.hashPassword
       BcryptPlain.comparePassword BcryptPlain.logError] in *;
  run.

(** The schedule prefixes a run can have used, tried in turn. *)
Ltac with_prefix tac :=
  first
    [ solve [exists (@nil bool); tac]
    | solve [exists [true]; tac]
    | solve [exists [false]; tac]
    | solve [exists [false; true]; tac]
    | solve [exists [false; false]; tac]
    | solve [exists [false; false; true]; tac]
    | solve [exists [false; false; false]; tac]
    | solve [exists [false; false; false; true]; tac]
    | solve [exists [false; false; false; false]; tac]
    | solve [exists [false; false; false; false; true]; tac]
    | solve [exists [false; false; false; false; false]; tac] ].

Ltac resolves_case :=
  eexists;
  with_prefix ltac:(split; [reflexivity
                    | split; [reflexivity
                    | simpl; intuition (discriminate || auto)]]).

Section PlainCallbacks.
Context {B : Bcrypt}.

Lemma plain_writes u p w :
  writes_at_most_first_use u w (snd (BcryptPlain.authenticate u p w)).
Proof.
  destruct w as [t fs r d c]. unfold writes_at_most_first_use.
  destruct (sql_select u t) as [|user rows] eqn:Hs.
  - left. run_plain; reflexivity.
  - destruct (js_not (password user)) eqn:Hn.
    + run_plain; try (left; reflexivity); right; do 3 eexists;
        repeat split; eauto.
    + left. destruct (password user) as [h|] eqn:Hp; [|discriminate].
      run_plain; try reflexivity; destruct (bcrypt_compare _ _); reflexivity.
Qed.

Lemma plain_first_use u p w user rows :
  quiet w -> sql_select u (table w) = user :: rows ->
  js_not (password user) = true ->
  fst (BcryptPlain.authenticate u p w) = Granted u (permissions user) /\
  table (snd (BcryptPlain.authenticate u p w))
  = sql_update_password
      (bcrypt_hash p (rng w BcryptPlain.SALT_ROUNDS (drawn w))) u (table w) /\
  quiet (snd (BcryptPlain.authenticate u p w)).
Proof.
  destruct w as [t fs r d c]. intros Q Hs Hn.
  destruct (sql_select_head _ _ Hs) as [_ Hu].
  run_plain; rewrite Hu; auto.
Qed.

Lemma plain_check u p w user rows h :
  quiet w -> sql_select u (table w) = user :: rows ->
  password user = Some h -> h <> "" ->
  fst (BcryptPlain.authenticate u p w)
  = (if bcrypt_compare p h then Granted u (permissions user) else Denied) /\
  table (snd (BcryptPlain.authenticate u p w)) = table w /\
  quiet (snd (BcryptPlain.authenticate u p w)).
Proof.
  destruct w as [t fs r d c]. intros Q Hs Hp Hh.
  destruct (sql_select_head _ _ Hs) as [_ Hu].
  assert (Hn : js_not (password user) = false)
    by (rewrite Hp; now apply truthy_string).
  destruct (bcrypt_compare p h) eqn:E; run_plain; rewrite ?Hu; auto.
Qed.

Lemma plain_mismatch u p w user rows h :
  sql_select u (table w) = user :: rows ->
  password user = Some h -> h <> "" ->
  bcrypt_compare p h = false ->
  fst (BcryptPlain.authenticate u p w) = Denied.
Proof.
  destruct w as [t fs r d c]. intros Hs Hp Hh E.
  assert (Hn : js_not (password user) = false)
    by (rewrite Hp; now apply truthy_string).
  run_plain; reflexivity.
Qed.

Lemma plain_fail_closed u p : fail_closed (BcryptPlain.authenticate u p).
Proof.
  intros [t fs r d c].
  destruct (sql_select u t) as [|user rows] eqn:Hs.
  - run_plain; resolves_case.
  - destruct (js_not (password user)) eqn:Hn.
    + run_plain; resolves_case.
    + destruct (password user) as [h|] eqn:Hp; [|discriminate].
      destruct (bcrypt_compare p h) eqn:E; run_plain; resolves_case.
Qed.

Lemma plain_users_fail_closed u : fail_closed (BcryptPlain.users u).
Proof.
  intros [t fs r d c].
  destruct (sql_select_info u t) eqn:E; run_plain; resolves_case.
Qed.

End PlainCallbacks.

Section MoreCallbacks.
Context {B : Bcrypt} {C : NodeCrypto}.
Variables (cfg : sqltext) (key iv : string).

Lemma plain_users_quiet u w :
  quiet w ->
  fst (BcryptPlain.users u w)
  = Resolved match sql_select u (table w) with
             | user :: _ => Some (mkUser u (permissions user))
             | [] => None
             end.
Proof.
  destruct w as [t fs r d c]. intros Q.
  destruct (sql_select u t) as [|user rows] eqn:Hs;
    [| destruct (sql_select_head _ _ Hs) as [_ Hu] ];
    run_plain; unfold sql_select_info; rewrite Hs; simpl;
    rewrite ?Hu; reflexivity.
Qed.

(** *** What a granted answer looks like *)

Lemma custom_granted_shape u p w ui :
  fst (CustomAuth.authenticate cfg u p w) = Resolved (Some ui) ->
  from_lookup u w ui.
Proof.
  destruct w as [t fs r d c]. unfold from_lookup.
  destruct (sql_select u t) as [|user rows] eqn:Hs.
  - run; discriminate.
  - destruct (sql_select_head _ _ Hs) as [_ Hu]. intros H.
    exists user, rows. split; [exact Hs|]. revert H.
    destruct (js_not (password user)) eqn:Hn.
    + run; intros H; try discriminate H; injection H as <-; now rewrite Hu.
    + destruct (password user) as [h|] eqn:Hp; [|discriminate].
      destruct (bcrypt_compare (p ++ CustomAuth.STATIC_SALT cfg) h) eqn:E;
        run; intros H; try discriminate H; injection H as <-; now rewrite Hu.
Qed.

Lemma plain_granted_shape u p w ui :
  fst (BcryptPlain.authenticate u p w) = Resolved (Some ui) ->
  from_lookup u w ui.
Proof.
  destruct w as [t fs r d c]. unfold from_lookup.
  destruct (sql_select u t) as [|user rows] eqn:Hs.
  - run_plain; discriminate.
  - destruct (sql_select_head _ _ Hs) as [_ Hu]. intros H.
    exists user, rows. split; [exact Hs|]. revert H.
    destruct (js_not (password user)) eqn:Hn.
    + run_plain; intros H; try discriminate H; injection H as <-;
        now rewrite Hu.
    + destruct (password user) as [h|] eqn:Hp; [|discriminate].
      destruct (bcrypt_compare p h) eqn:E;
        run_plain; intros H; try discriminate H; injection H as <-;
        now rewrite Hu.
Qed.

Lemma pool_granted_shape u p w ui :
  fst (AesPool.authenticate key iv u p w) = Resolved (Some ui) ->
  from_lookup u w ui.
Proof.
  destruct w as [t fs r d c]. unfold from_lookup.
  destruct (sql_select u t) as [|user rows] eqn:Hs.
  - run; discriminate.
  - destruct (sql_select_head _ _ Hs) as [_ Hu]. intros H.
    exists user, rows. split; [exact Hs|]. revert H.
    destruct (js_not (password user)) eqn:Hn.
    + run; intros H; try discriminate H; injection H as <-; now rewrite Hu.
    + destruct (js_strict_eq (password user) (base64 (aes_256_cbc key iv p)))
        eqn:E;
        run; intros H; try discriminate H; injection H as <-; now rewrite Hu.
Qed.

(** The permissions a lookup of [u] finds survive whatever [authenticate]
    wrote. *)
Lemma lookup_survives u w w' ui :
  writes_at_most_first_use u w w' ->
  from_lookup u w ui -> from_lookup u w' ui.
Proof.
  intros [E|(user' & rows' & secret & Hs & _ & E)] (user & rows & Hsel & ->);
    unfold from_lookup; rewrite E.
  - eauto.
  - rewrite sql_select_update, Hsel. simpl.
    eexists; eexists; split; reflexivity.
Qed.

End MoreCallbacks.

(** [n] calls in a row that each keep the table; the world they end in is
    quiet again. *)
Lemma calls_keep {A} (f : World -> Outcome A * World) (t : Table) (n : nat) :
  (forall w, quiet w -> table w = t ->
             table (snd (f w)) = t /\ quiet (snd (f w))) ->
  forall w, quiet w -> table w = t ->
            table (snd (calls f n w)) = t /\ quiet (snd (calls f n w)).
Proof.
  intros Hf. induction n as [|n IH]; intros w Q Ht; simpl; [now auto|].
  destruct (Hf w Q Ht) as (Ht' & Q').
  destruct (f w) as [o1 w1]; simpl in *.
  destruct (IH w1 Q' Ht') as (Hts & Qs).
  destruct (calls f n w1) as [os w2]; simpl in *.
  now split.
Qed.

(** [n] calls in a row that each keep the table and answer [o]; the world
    they end in is quiet again. *)
Lemma calls_quiet {A} (f : World -> Outcome A * World) (o : Outcome A)
      (t : Table) (n : nat) :
  (forall w, quiet w -> table w = t ->
             fst (f w) = o /\ table (snd (f w)) = t /\ quiet (snd (f w))) ->
  forall w, quiet w -> table w = t ->
            fst (calls f n w) = repeat o n /\
            table (snd (calls f n w)) = t /\
            quiet (snd (calls f n w)).
Proof.
  intros Hf. induction n as [|n IH]; intros w Q Ht; simpl; [now auto|].
  destruct (Hf w Q Ht) as (Ho & Ht' & Q').
  destruct (f w) as [o1 w1]; simpl in *.
  destruct (IH w1 Q' Ht') as (Hos & Hts & Qs).
  destruct (calls f n w1) as [os w2]; simpl in *.
  repeat split; congruence.
Qed.

(** One case of [logs_exactly_failures]: pick the schedule prefix, read the
    printed messages off the console. *)
Ltac logs_case :=
  with_prefix ltac:(
    eexists; split; [reflexivity|];
    split; [ first [ symmetry; apply app_nil_r
                   | reflexivity
                   | rewrite <- app_assoc; reflexivity ] |];
    split;
    [ intros HIn;
      first [ discriminate
            | exfalso; simpl in HIn; intuition discriminate ]
    | intros H;
      first [ now elim H
            | simpl; repeat first [left; reflexivity | right] ] ]).

(** ** Beyond the specification: properties of the code *)

(** X1. The file without static salt trusts on first use: with no failing
    call a record without password grants any password and binds it; from
    then on no call writes to the table, every password that agrees with the
    bound one on its first 72 bytes is granted (absent failures), and every
    password whose digest under the stored salt is not the stored one is
    denied. *)
Theorem plain_trust_on_first_use
  {B : Bcrypt} (u p : string) (w : World) (user : Row) (rows : list Row) :
  quiet w ->
  sql_select u (table w) = user :: rows ->
  password user = None ->
  fst (BcryptPlain.authenticate u p w) = Granted u (permissions user) /\
  forall w2 p2,
    table w2 = table (snd (BcryptPlain.authenticate u p w)) ->
    let salt := rng w BcryptPlain.SALT_ROUNDS (drawn w) in
    stored_secret u (table w2) = Some (Some (bcrypt_hash p salt)) /\
    table (snd (BcryptPlain.authenticate u p2 w2)) = table w2 /\
    (quiet w2 -> substring 0 72 p2 = substring 0 72 p ->
     fst (BcryptPlain.authenticate u p2 w2) = Granted u (permissions user)) /\
    (bcrypt_hash p2 salt <> bcrypt_hash p salt ->
     fst (BcryptPlain.authenticate u p2 w2) = Denied).
Proof.
  intros Q Hs Hp.
  assert (Hn : js_not (password user) = true) by now rewrite Hp.
  destruct (plain_first_use u p w user rows Q Hs Hn) as (Ho & Ht & _).
  split; [exact Ho|]. intros w2 p2 Ht2. rewrite Ht in Ht2. cbv zeta.
  set (h := bcrypt_hash p (rng w BcryptPlain.SALT_ROUNDS (drawn w))) in *.
  assert (Hs2 : sql_select u (table w2)
                = set_password h user :: map (set_password h) rows)
    by (rewrite Ht2, sql_select_update, Hs; reflexivity).
  assert (Hh : h <> "") by apply bcrypt_hash_nonempty.
  split; [|split; [|split]].
  - unfold stored_secret. now rewrite Hs2.
  - eapply no_write_when_set;
      [apply plain_writes | exact Hs2 | now apply truthy_string].
  - intros Q2 E.
    destruct (plain_check u p2 w2 _ _ h Q2 Hs2 eq_refl Hh) as (Ho2 & _).
    unfold h in Ho2. now rewrite bcrypt_same_prefix_accepts in Ho2.
  - intros Hne. eapply plain_mismatch; [exact Hs2 | reflexivity | exact Hh |].
    now apply bcrypt_compare_differs.
Qed.

Lemma plain_trust_on_first_use_witness :
  quiet alice_fresh /\
  fst (BcryptPlain.authenticate (B:=ModelBcrypt) "alice" "hunter2" alice_fresh)
  = Granted "alice" (Some "read") /\
  fst (BcryptPlain.authenticate (B:=ModelBcrypt) "alice" "wrong"
         (alice_bound_plain "hunter2")) = Denied.
Proof.
  pose proof (@plain_trust_on_first_use ModelBcrypt "alice" "hunter2"
                alice_fresh (mkRow 1 "alice" None (Some "read")) []
                eq_refl eq_refl eq_refl) as [H1 H2].
  split; [reflexivity|]. split; [exact H1|].
  apply (H2 (alice_bound_plain "hunter2") "wrong" eq_refl).
  vm_compute. intros E. discriminate E.
Defined.

(** X2. In the file without static salt too, [authenticate] and [users]
    always resolve, and resolve to [null] once an external call they made
    has failed. *)
Theorem plain_faults_resolve_to_null {B : Bcrypt} (u p : string) :
  fail_closed (BcryptPlain.authenticate u p) /\
  fail_closed (BcryptPlain.users u).
Proof.
  split.
  - apply plain_fail_closed.
  - apply plain_users_fail_closed.
Qed.

(** X3. For a password of 72 bytes or more the static salt has no effect:
    [hashPassword] of [customAuth.js] yields, under every failure schedule,
    the same result for any two configured salts, and the same result as the
    [hashPassword] that uses no static salt. *)
Theorem static_salt_ignored_from_72_bytes
  {B : Bcrypt} (cfg1 cfg2 : sqltext) (p : string) (w : World) :
  72 <= String.length p ->
  CustomAuth.hashPassword cfg1 p w = CustomAuth.hashPassword cfg2 p w /\
  CustomAuth.hashPassword cfg1 p w = BcryptPlain.hashPassword p w.
Proof.
  intros L.
  assert (E : forall cfg salt,
             bcrypt_hash (p ++ CustomAuth.STATIC_SALT cfg) salt
             = bcrypt_hash p salt).
  { intros cfg salt.
    rewrite (bcrypt_72 (p ++ _)), salted_prefix_long by exact L.
    symmetry. apply bcrypt_72. }
  destruct w as [t fs r d c].
  split; run_plain; rewrite ?E; reflexivity.
Qed.

Lemma static_salt_ignored_from_72_bytes_witness :
  72 <= String.length long_x /\
  CustomAuth.hashPassword (B:=ModelBcrypt) (Some "pepper") long_x alice_fresh
  = BcryptPlain.hashPassword (B:=ModelBcrypt) long_x alice_fresh.
Proof.
  assert (L : 72 <= String.length long_x) by (vm_compute; lia).
  split; [exact L|].
  exact (proj2 (@static_salt_ignored_from_72_bytes ModelBcrypt
                  (Some "pepper") None long_x alice_fresh L)).
Defined.

(** X4. Moving a store between the two bcrypt files (no failing call): a
    password bound by the file without static salt is granted by
    [customAuth.js] exactly when appending the static salt leaves its digest
    under the stored salt unchanged, and likewise a password bound by
    [customAuth.js] for the file without static salt; every password of 72
    bytes or more is granted across the two files. *)
Theorem switching_bcrypt_files
  {B : Bcrypt} (cfg : sqltext) (u p salt : string) (w : World)
  (user : Row) (rows : list Row) :
  quiet w ->
  sql_select u (table w) = user :: rows ->
  let plain := bcrypt_hash p salt in
  let salted := bcrypt_hash (p ++ CustomAuth.STATIC_SALT cfg) salt in
  (password user = Some plain ->
   fst (CustomAuth.authenticate cfg u p w)
   = (if String.eqb salted plain
      then Granted u (permissions user) else Denied) /\
   (72 <= String.length p ->
    fst (CustomAuth.authenticate cfg u p w) = Granted u (permissions user)))
  /\
  (password user = Some salted ->
   fst (BcryptPlain.authenticate u p w)
   = (if String.eqb plain salted
      then Granted u (permissions user) else Denied) /\
   (72 <= String.length p ->
    fst (BcryptPlain.authenticate u p w) = Granted u (permissions user))).
Proof.
  intros Q Hs. cbv zeta.
  assert (E72 : 72 <= String.length p ->
                bcrypt_hash (p ++ CustomAuth.STATIC_SALT cfg) salt
                = bcrypt_hash p salt).
  { intros L. rewrite (bcrypt_72 (p ++ _)), salted_prefix_long by exact L.
    symmetry. apply bcrypt_72. }
  split; intros Hp.
  - destruct (custom_check cfg u p Q Hs Hp (bcrypt_hash_nonempty _ _))
      as (Ho & _).
    rewrite bcrypt_compare_rehash in Ho. split; [exact Ho|].
    intros L. now rewrite Ho, (E72 L), String.eqb_refl.
  - destruct (plain_check u p w user rows _ Q Hs Hp
                (bcrypt_hash_nonempty _ _)) as (Ho & _).
    rewrite bcrypt_compare_rehash in Ho. split; [exact Ho|].
    intros L. now rewrite Ho, (E72 L), String.eqb_refl.
Qed.

Lemma switching_bcrypt_files_witness :
  quiet (alice_bound_plain "hunter2") /\
  fst (CustomAuth.authenticate (B:=ModelBcrypt) None "alice" "hunter2"
         (alice_bound_plain "hunter2")) = Denied /\
  fst (CustomAuth.authenticate (B:=ModelBcrypt) None "alice" long_x
         (alice_bound_plain long_x)) = Granted "alice" (Some "read").
Proof.
  split; [reflexivity|]. split.
  - exact (proj1 (proj1 (@switching_bcrypt_files ModelBcrypt None "alice"
                           "hunter2" (model_rng 10 0)
                           (alice_bound_plain "hunter2") _ []
                           eq_refl eq_refl) eq_refl)).
  - refine (proj2 (proj1 (@switching_bcrypt_files ModelBcrypt None "alice"
                            long_x (model_rng 10 0)
                            (alice_bound_plain long_x) _ []
                            eq_refl eq_refl) eq_refl) _).
    vm_compute. lia.
Defined.

(** X5. If the query that re-reads the record after the first-use [UPDATE]
    fails, the caller is told [null] although the password has been bound:
    on the resulting store the same password is granted and, in the cipher
    variant, every other password is denied. *)
Theorem bound_although_denied
  {B : Bcrypt} {C : NodeCrypto} (cfg : sqltext) (key iv u p : string)
  (w : World) (user : Row) (rows : list Row) (rest : list bool) :
  sql_select u (table w) = user :: rows ->
  js_not (password user) = true ->
  (faults w = ([false; false; false; false; true] ++ rest)%list ->
   fst (CustomAuth.authenticate cfg u p w) = Denied /\
   forall w2, quiet w2 ->
     table w2 = table (snd (CustomAuth.authenticate cfg u p w)) ->
     fst (CustomAuth.authenticate cfg u p w2) = Granted u (permissions user))
  /\
  (faults w = ([false; false; false; true] ++ rest)%list ->
   fst (AesPool.authenticate key iv u p w) = Denied /\
   forall w2, quiet w2 ->
     table w2 = table (snd (AesPool.authenticate key iv u p w)) ->
     fst (AesPool.authenticate key iv u p w2) = Granted u (permissions user) /\
     forall p2, p2 <> p -> fst (AesPool.authenticate key iv u p2 w2) = Denied).
Proof.
  intros Hs Hn. split; intros Hf.
  - assert (H : fst (CustomAuth.authenticate cfg u p w) = Denied /\
                table (snd (CustomAuth.authenticate cfg u p w))
                = sql_update_password
                    (bcrypt_hash (p ++ CustomAuth.STATIC_SALT cfg)
                       (rng w CustomAuth.SALT_ROUNDS (drawn w))) u (table w)).
    { destruct w as [t fs r d c]. simpl in Hf, Hs. subst fs.
      run; auto. }
    destruct H as [Ho Ht]. split; [exact Ho|].
    intros w2 Q2 Ht2. rewrite Ht in Ht2.
    assert (Hs2 : sql_select u (table w2)
                  = map (set_password
                           (bcrypt_hash (p ++ CustomAuth.STATIC_SALT cfg)
                              (rng w CustomAuth.SALT_ROUNDS (drawn w))))
                        (user :: rows))
      by (rewrite Ht2, sql_select_update, Hs; reflexivity).
    destruct (custom_check cfg u p Q2 Hs2 eq_refl (bcrypt_hash_nonempty _ _))
      as (Ho2 & _).
    now rewrite bcrypt_compare_hash in Ho2.
  - assert (H : fst (AesPool.authenticate key iv u p w) = Denied /\
                table (snd (AesPool.authenticate key iv u p w))
                = sql_update_password (base64 (aes_256_cbc key iv p)) u
                    (table w)).
    { destruct w as [t fs r d c]. simpl in Hf, Hs. subst fs.
      run; auto. }
    destruct H as [Ho Ht]. split; [exact Ho|].
    intros w2 Q2 Ht2. rewrite Ht in Ht2.
    assert (Hs2 : sql_select u (table w2)
                  = map (set_password (base64 (aes_256_cbc key iv p)))
                        (user :: rows))
      by (rewrite Ht2, sql_select_update, Hs; reflexivity).
    assert (Hset : js_not (password (set_password
                     (base64 (aes_256_cbc key iv p)) user)) = false)
      by (apply truthy_string, encrypt_truthy).
    split.
    + destruct (pool_check key iv u p Q2 Hs2 Hset) as (Ho2 & _).
      simpl in Ho2. now rewrite String.eqb_refl in Ho2.
    + intros p2 Hne. eapply pool_mismatch; [exact Hs2 | exact Hset |].
      simpl. apply String.eqb_neq. intros E.
      apply encrypt_injective in E. congruence.
Qed.

Lemma bound_although_denied_witness :
  let w := mkWorld (table alice_fresh) [false; false; false; false; true]
             model_rng 0 [] in
  fst (CustomAuth.authenticate (B:=ModelBcrypt) None "alice" "hunter2" w)
  = Denied /\
  fst (CustomAuth.authenticate (B:=ModelBcrypt) None "alice" "hunter2"
         alice_bound_bcrypt)
  = Granted "alice" (Some "read").
Proof.
  cbv zeta.
  destruct (proj1 (@bound_although_denied ModelBcrypt ModelCrypto None
                     "k" "iv" "alice" "hunter2"
                     (mkWorld (table alice_fresh)
                        [false; false; false; false; true] model_rng 0 [])
                     (mkRow 1 "alice" None (Some "read")) [] []
                     eq_refl eq_refl) eq_refl) as [H1 H2].
  split; [exact H1|].
  apply (H2 alice_bound_bcrypt eq_refl). reflexivity.
Defined.

(** X6. A failure while deriving or checking the secret in [customAuth.js]
    is reported twice, first by the helper and then by [authenticate], and
    leaves the table as it was: salt generation or hashing failing on first
    use, and the comparison failing against a set password, all end in
    [null]. *)
Theorem derivation_failure_logged_twice
  {B : Bcrypt} (cfg : sqltext) (u p : string) (w : World)
  (user : Row) (rows : list Row) (rest : list bool) :
  sql_select u (table w) = user :: rows ->
  (js_not (password user) = true ->
   faults w = false :: true :: rest \/
   faults w = false :: false :: true :: rest ->
   fst (CustomAuth.authenticate cfg u p w) = Denied /\
   table (snd (CustomAuth.authenticate cfg u p w)) = table w /\
   console (snd (CustomAuth.authenticate cfg u p w))
   = (console w ++ ["Error hashing password:";
                    "Error during authentication:"])%list)
  /\
  (js_not (password user) = false ->
   faults w = false :: true :: rest ->
   fst (CustomAuth.authenticate cfg u p w) = Denied /\
   table (snd (CustomAuth.authenticate cfg u p w)) = table w /\
   console (snd (CustomAuth.authenticate cfg u p w))
   = (console w ++ ["Error comparing password:";
                    "Error during authentication:"])%list).
Proof.
  intros Hs. destruct w as [t fs r d c]. simpl in Hs. split.
  - intros Hn [Hf|Hf]; simpl in Hf; subst fs; run;
      rewrite <- app_assoc; auto.
  - intros Hn Hf. simpl in Hf. subst fs.
    destruct (password user) as [h|] eqn:Hp; [|discriminate].
    run; rewrite <- app_assoc; auto.
Qed.

Lemma derivation_failure_logged_twice_witness :
  let w := mkWorld (table alice_fresh) [false; true] model_rng 0 [] in
  console (snd (CustomAuth.authenticate (B:=ModelBcrypt) None
                  "alice" "hunter2" w))
  = ["Error hashing password:"; "Error during authentication:"].
Proof.
  cbv zeta.
  exact (proj2 (proj2 (proj1
    (@derivation_failure_logged_twice ModelBcrypt None "alice" "hunter2"
       (mkWorld (table alice_fresh) [false; true] model_rng 0 [])
       (mkRow 1 "alice" None (Some "read")) [] [] eq_refl)
    eq_refl (or_introl eq_refl)))).
Defined.

(** X7. Whatever [authenticate] grants is what [users] reports afterwards:
    if a call resolves to a user object, then [users] for the same username
    on the resulting table, its query not failing, resolves to that same
    object.  This holds in all four files and whatever failed during
    [authenticate]. *)
Theorem granted_matches_users
  {B : Bcrypt} {C : NodeCrypto} (cfg : sqltext) (key iv u p : string)
  (w w2 : World) (ui : UserInfo) :
  quiet w2 ->
  (fst (CustomAuth.authenticate cfg u p w) = Resolved (Some ui) ->
   table w2 = table (snd (CustomAuth.authenticate cfg u p w)) ->
   fst (CustomAuth.users u w2) = Resolved (Some ui)) /\
  (fst (BcryptPlain.authenticate u p w) = Resolved (Some ui) ->
   table w2 = table (snd (BcryptPlain.authenticate u p w)) ->
   fst (BcryptPlain.users u w2) = Resolved (Some ui)) /\
  (fst (AesPool.authenticate key iv u p w) = Resolved (Some ui) ->
   table w2 = table (snd (AesPool.authenticate key iv u p w)) ->
   fst (AesPool.users u w2) = Resolved (Some ui)) /\
  (fst (AesClient.authenticate key iv u p w) = Resolved (Some ui) ->
   table w2 = table (snd (AesClient.authenticate key iv u p w)) ->
   fst (AesClient.users u w2) = Resolved (Some ui)).
Proof.
  intros Q2.
  pose proof (users_quiet u Q2) as Hu. cbv zeta in Hu.
  pose proof (plain_users_quiet u w2 Q2) as Hpl.
  destruct (client_as_pool key iv u p w) as (Hcf & Hct & _).
  assert (K : forall w', writes_at_most_first_use u w w' ->
                         from_lookup u w ui -> table w2 = table w' ->
                         exists user rows,
                           sql_select u (table w2) = user :: rows /\
                           ui = mkUser u (permissions user)).
  { intros w' Hw Hl Ht.
    destruct (lookup_survives u w w' ui Hw Hl) as (user & rows & Hs & E).
    exists user, rows. now rewrite Ht. }
  repeat split; intros Hg Ht.
  - destruct (K _ (custom_writes cfg u p w) (custom_granted_shape cfg u p w ui Hg) Ht)
      as (user & rows & Hs & ->).
    rewrite Hs in Hu. apply Hu.
  - destruct (K _ (plain_writes u p w) (plain_granted_shape u p w ui Hg) Ht)
      as (user & rows & Hs & ->).
    now rewrite Hs in Hpl.
  - destruct (K _ (pool_writes key iv u p w)
                (pool_granted_shape key iv u p w ui Hg) Ht)
      as (user & rows & Hs & ->).
    rewrite Hs in Hu. apply Hu.
  - rewrite Hcf in Hg. rewrite Hct in Ht.
    destruct (K _ (pool_writes key iv u p w)
                (pool_granted_shape key iv u p w ui Hg) Ht)
      as (user & rows & Hs & ->).
    rewrite Hs in Hu. apply Hu.
Qed.

Lemma granted_matches_users_witness :
  quiet alice_bound_bcrypt /\
  fst (CustomAuth.users "alice" alice_bound_bcrypt)
  = Resolved (Some (mkUser "alice" (Some "read"))).
Proof.
  split; [reflexivity|].
  exact (proj1 (@granted_matches_users ModelBcrypt ModelCrypto None "k" "iv"
                  "alice" "hunter2" alice_fresh alice_bound_bcrypt
                  (mkUser "alice" (Some "read")) eq_refl)
           eq_refl eq_refl).
Defined.

(** X8. [authenticate] never creates or deletes a record and never touches
    the id, username or permissions of one: in all four files and under
    every failure schedule the table afterwards lists the same ids, usernames
    and permissions in the same order. *)
Theorem records_never_created_or_deleted
  {B : Bcrypt} {C : NodeCrypto} (cfg : sqltext) (key iv u p : string)
  (w : World) :
  map identity (table (snd (CustomAuth.authenticate cfg u p w)))
  = map identity (table w) /\
  map identity (table (snd (BcryptPlain.authenticate u p w)))
  = map identity (table w) /\
  map identity (table (snd (AesPool.authenticate key iv u p w)))
  = map identity (table w) /\
  map identity (table (snd (AesClient.authenticate key iv u p w)))
  = map identity (table w).
Proof.
  assert (K : forall w', writes_at_most_first_use u w w' ->
                         map identity (table w') = map identity (table w)).
  { intros w' [E|(user & rows & secret & _ & _ & E)]; rewrite E;
      [reflexivity | apply sql_update_identity]. }
  repeat split; apply K.
  - apply custom_writes.
  - apply plain_writes.
  - apply pool_writes.
  - apply client_writes.
Qed.

(** X9. A call of [authenticate] for one username leaves every row of any
    other username exactly as it was, in all four files and under every
    failure schedule; no uniqueness of usernames is needed. *)
Theorem other_users_untouched
  {B : Bcrypt} {C : NodeCrypto} (cfg : sqltext) (key iv u p : string)
  (w : World) (i : nat) (r : Row) :
  nth_error (table w) i = Some r ->
  username r <> u ->
  nth_error (table (snd (CustomAuth.authenticate cfg u p w))) i = Some r /\
  nth_error (table (snd (BcryptPlain.authenticate u p w))) i = Some r /\
  nth_error (table (snd (AesPool.authenticate key iv u p w))) i = Some r /\
  nth_error (table (snd (AesClient.authenticate key iv u p w))) i = Some r.
Proof.
  intros Hi Hu.
  assert (K : forall w', writes_at_most_first_use u w w' ->
                         nth_error (table w') i = Some r).
  { intros w' [E|(user & rows & secret & _ & _ & E)]; rewrite E;
      [exact Hi | now apply sql_update_other]. }
  repeat split; apply K.
  - apply custom_writes.
  - apply plain_writes.
  - apply pool_writes.
  - apply client_writes.
Qed.

Lemma other_users_untouched_witness :
  nth_error (table (snd (AesPool.authenticate (C:=ModelCrypto) "k" "iv"
                           "alice" "hunter2" alice_and_bob))) 1
  = Some (mkRow 2 "bob" (Some (model_cipher "k" "iv" "hunter2")) (Some "*")).
Proof.
  refine (proj1 (proj2 (proj2
    (@other_users_untouched ModelBcrypt ModelCrypto None "k" "iv"
       "alice" "hunter2" alice_and_bob 1 _ eq_refl _)))).
  intros E. discriminate E.
Defined.

(** X10. In the cipher variant the table shows who shares a password: after
    two users without password each bind one, in runs without failure,
    their stored secrets are equal exactly when their passwords are. *)
Theorem equal_secrets_iff_equal_passwords
  {C : NodeCrypto} (key iv u1 u2 p1 p2 : string) (w : World)
  (user1 user2 : Row) (rows1 rows2 : list Row) :
  quiet w ->
  u1 <> u2 ->
  sql_select u1 (table w) = user1 :: rows1 ->
  sql_select u2 (table w) = user2 :: rows2 ->
  js_not (password user1) = true ->
  js_not (password user2) = true ->
  let w1 := snd (AesPool.authenticate key iv u1 p1 w) in
  let w2 := snd (AesPool.authenticate key iv u2 p2 w1) in
  stored_secret u1 (table w2) = stored_secret u2 (table w2) <-> p1 = p2.
Proof.
  intros Q Hne Hs1 Hs2 Hn1 Hn2. cbv zeta.
  destruct (pool_first_use key iv u1 p1 Q Hs1 Hn1) as (_ & Ht1 & Q1).
  assert (Hs2' : sql_select u2
                   (table (snd (AesPool.authenticate key iv u1 p1 w)))
                 = user2 :: rows2)
    by (rewrite Ht1, sql_select_update_other by exact Hne; exact Hs2).
  destruct (pool_first_use key iv u2 p2 Q1 Hs2' Hn2) as (_ & Ht2 & _).
  unfold stored_secret. rewrite Ht2, sql_select_update, Hs2'.
  rewrite sql_select_update_other by congruence.
  rewrite Ht1, sql_select_update, Hs1. simpl.
  split.
  - intros E. injection E as E. symmetry. now apply encrypt_injective in E.
  - now intros ->.
Qed.

Lemma equal_secrets_iff_equal_passwords_witness :
  quiet two_fresh /\
  let w1 := snd (AesPool.authenticate (C:=ModelCrypto) "k" "iv"
                   "alice" "hunter2" two_fresh) in
  let w2 := snd (AesPool.authenticate (C:=ModelCrypto) "k" "iv"
                   "bob" "hunter2" w1) in
  stored_secret "alice" (table w2) = stored_secret "bob" (table w2).
Proof.
  split; [reflexivity|].
  assert (Hne : "alice" <> "bob") by (intros E; discriminate E).
  exact (proj2 (@equal_secrets_iff_equal_passwords ModelCrypto "k" "iv"
                  "alice" "bob" "hunter2" "hunter2" two_fresh _ _ [] []
                  eq_refl Hne eq_refl eq_refl eq_refl eq_refl) eq_refl).
Defined.

(** X11. Failures, and only failures, reach the console: every callback of
    the four files prints at least one message when an external call it made
    failed, and prints nothing otherwise. *)
Theorem failures_are_logged
  {B : Bcrypt} {C : NodeCrypto} (cfg : sqltext) (key iv u p : string) :
  (logs_exactly_failures (CustomAuth.authenticate cfg u p) /\
   logs_exactly_failures (CustomAuth.users u)) /\
  (logs_exactly_failures (BcryptPlain.authenticate u p) /\
   logs_exactly_failures (BcryptPlain.users u)) /\
  (logs_exactly_failures (AesPool.authenticate key iv u p) /\
   logs_exactly_failures (AesPool.users u)) /\
  (logs_exactly_failures (AesClient.authenticate key iv u p) /\
   logs_exactly_failures (AesClient.users u)).
Proof.
  repeat split; intros [t fs r d c].
  - destruct (sql_select u t) as [|user rows] eqn:Hs;
      [| destruct (js_not (password user)) eqn:Hn;
         [| destruct (password user) as [h|] eqn:Hp; [|discriminate];
            destruct (bcrypt_compare (p ++ CustomAuth.STATIC_SALT cfg) h)
              eqn:E ] ];
      run; logs_case.
  - destruct (sql_select_info u t) eqn:E; run; logs_case.
  - destruct (sql_select u t) as [|user rows] eqn:Hs;
      [| destruct (js_not (password user)) eqn:Hn;
         [| destruct (password user) as [h|] eqn:Hp; [|discriminate];
            destruct (bcrypt_compare p h) eqn:E ] ];
      run_plain; logs_case.
  - destruct (sql_select_info u t) eqn:E; run_plain; logs_case.
  - destruct (sql_select u t) as [|user rows] eqn:Hs;
      [| destruct (js_not (password user)) eqn:Hn;
         [| destruct (js_strict_eq (password user)
                        (base64 (aes_256_cbc key iv p))) eqn:E ] ];
      run; logs_case.
  - destruct (sql_select_info u t) eqn:E; run; logs_case.
  - destruct (sql_select u t) as [|user rows] eqn:Hs;
      [| destruct (js_not (password user)) eqn:Hn;
         [| destruct (js_strict_eq (password user)
                        (base64 (aes_256_cbc key iv p))) eqn:E ] ];
      run; logs_case.
  - destruct (sql_select_info u t) eqn:E; run; logs_case.
Qed.

(** X12. Failed attempts never lock an account: after any number of
    attempts with any password (absent failures) the table is unchanged and
    the bound password is still granted, in [customAuth.js] and in the
    cipher variant; the attempts are all denied when the attempted password
    has another digest than the stored one (another ciphertext, that is any
    other password, in the cipher variant). *)
Theorem wrong_passwords_never_lock_out
  {B : Bcrypt} {C : NodeCrypto} (cfg : sqltext) (key iv u p bad : string)
  (n : nat) (w : World) (user : Row) (rows : list Row) :
  quiet w ->
  sql_select u (table w) = user :: rows ->
  (forall salt,
     password user
     = Some (bcrypt_hash (p ++ CustomAuth.STATIC_SALT cfg) salt) ->
     let tries := calls (CustomAuth.authenticate cfg u bad) n w in
     table (snd tries) = table w /\
     fst (CustomAuth.authenticate cfg u p (snd tries))
     = Granted u (permissions user) /\
     (bcrypt_hash (bad ++ CustomAuth.STATIC_SALT cfg) salt
      <> bcrypt_hash (p ++ CustomAuth.STATIC_SALT cfg) salt ->
      fst tries = repeat Denied n))
  /\
  (password user = Some (base64 (aes_256_cbc key iv p)) ->
   bad <> p ->
   let tries := calls (AesPool.authenticate key iv u bad) n w in
   fst tries = repeat Denied n /\
   table (snd tries) = table w /\
   fst (AesPool.authenticate key iv u p (snd tries))
   = Granted u (permissions user)).
Proof.
  intros Q Hs. split.
  - intros salt Hp. cbv zeta.
    assert (Hh := bcrypt_hash_nonempty (p ++ CustomAuth.STATIC_SALT cfg) salt).
    destruct (calls_keep (CustomAuth.authenticate cfg u bad) (table w) n)
      with (w := w) as (Ht & Qn); [|exact Q|reflexivity|].
    { intros w' Q' Ht'. rewrite <- Ht' in Hs.
      destruct (custom_check cfg u bad Q' Hs Hp Hh) as (_ & Ht & Q'').
      split; [congruence | exact Q'']. }
    split; [exact Ht|]. split.
    + rewrite <- Ht in Hs.
      destruct (custom_check cfg u p Qn Hs Hp Hh) as (Hg & _).
      now rewrite bcrypt_compare_hash in Hg.
    + intros Hbad.
      apply (calls_quiet (CustomAuth.authenticate cfg u bad) Denied
               (table w) n); [|exact Q|reflexivity].
      intros w' Q' Ht'. rewrite <- Ht' in Hs.
      destruct (custom_check cfg u bad Q' Hs Hp Hh) as (Ho & Ht0 & Q'').
      rewrite bcrypt_compare_differs in Ho by exact Hbad.
      repeat split; [exact Ho | congruence | exact Q''].
  - intros Hp Hbad. cbv zeta.
    assert (Hn : js_not (password user) = false)
      by (rewrite Hp; apply truthy_string, encrypt_truthy).
    destruct (calls_quiet (AesPool.authenticate key iv u bad) Denied
                (table w) n) with (w := w) as (Ho & Ht & Qn);
      [|exact Q|reflexivity|].
    { intros w' Q' Ht'. rewrite <- Ht' in Hs.
      destruct (pool_check key iv u bad Q' Hs Hn) as (Ho & Ht & Q'').
      rewrite Hp in Ho. simpl in Ho.
      assert (E : String.eqb (base64 (aes_256_cbc key iv p))
                             (base64 (aes_256_cbc key iv bad)) = false).
      { apply String.eqb_neq. intros E. apply encrypt_injective in E.
        congruence. }
      rewrite E in Ho.
      repeat split; [exact Ho | congruence | exact Q'']. }
    split; [exact Ho|]. split; [exact Ht|].
    rewrite <- Ht in Hs.
    destruct (pool_check key iv u p Qn Hs Hn) as (Hg & _).
    rewrite Hp in Hg. simpl in Hg. now rewrite String.eqb_refl in Hg.
Qed.

Lemma wrong_passwords_never_lock_out_witness :
  quiet alice_bound_aes /\
  let tries := calls (AesPool.authenticate (C:=ModelCrypto) "k" "iv"
                        "alice" "wrong") 4 alice_bound_aes in
  fst tries = repeat Denied 4 /\
  table (snd tries) = table alice_bound_aes /\
  fst (AesPool.authenticate (C:=ModelCrypto) "k" "iv" "alice" "hunter2"
         (snd tries)) = Granted "alice" (Some "read").
Proof.
  split; [reflexivity|].
  refine (proj2 (@wrong_passwords_never_lock_out ModelBcrypt ModelCrypto None
                   "k" "iv" "alice" "hunter2" "wrong" 4 alice_bound_aes
                   _ [] eq_refl eq_refl) eq_refl _).
  intros E. discriminate E.
Defined.

(** X13. How many external calls a run without failure makes.  In
    [customAuth.js]: one for an unknown username, two when a password is
    set, five on first use, so no bcrypt work is done for an unknown user.
    In the cipher variant: two for an unknown username and when a password
    is set, four on first use. *)
Theorem external_calls_per_branch
  {B : Bcrypt} {C : NodeCrypto} (cfg : sqltext) (key iv u p : string)
  (w : World) :
  quiet w ->
  5 <= List.length (faults w) ->
  external_calls w (snd (CustomAuth.authenticate cfg u p w))
  = match sql_select u (table w) with
    | [] => 1
    | user :: _ => if js_not (password user) then 5 else 2
    end /\
  external_calls w (snd (AesPool.authenticate key iv u p w))
  = match sql_select u (table w) with
    | [] => 2
    | user :: _ => if js_not (password user) then 4 else 2
    end.
Proof.
  destruct w as [t fs r d c]. unfold external_calls. intros Q L.
  destruct fs as [|b1 [|b2 [|b3 [|b4 [|b5 fs]]]]]; simpl in L; try lia.
  cbv [quiet faults] in Q. simpl in Q.
  destruct b1, b2, b3, b4, b5; try discriminate Q.
  destruct (sql_select u t) as [|user rows] eqn:Hs.
  - split; run; cbn [List.length]; lia.
  - destruct (js_not (password user)) eqn:Hn.
    + split; run; cbn [List.length]; lia.
    + split.
      * destruct (password user) as [h|] eqn:Hp; [|discriminate].
        destruct (bcrypt_compare (p ++ CustomAuth.STATIC_SALT cfg) h) eqn:E;
          run; cbn [List.length]; lia.
      * destruct (js_strict_eq (password user)
                    (base64 (aes_256_cbc key iv p))) eqn:E;
          run; cbn [List.length]; lia.
Qed.

Lemma external_calls_per_branch_witness :
  quiet (five_successes (table alice_fresh)) /\
  external_calls (five_successes (table alice_fresh))
    (snd (CustomAuth.authenticate (B:=ModelBcrypt) None "bob" "x"
            (five_successes (table alice_fresh)))) = 1 /\
  external_calls (five_successes (table alice_bound_bcrypt))
    (snd (CustomAuth.authenticate (B:=ModelBcrypt) None "alice" "x"
            (five_successes (table alice_bound_bcrypt)))) = 2.
Proof.
  split; [reflexivity|]. split.
  - refine (proj1 (@external_calls_per_branch ModelBcrypt ModelCrypto None
                     "k" "iv" "bob" "x" (five_successes (table alice_fresh))
                     eq_refl _)).
    simpl. lia.
  - refine (proj1 (@external_calls_per_branch ModelBcrypt ModelCrypto None
                     "k" "iv" "alice" "x"
                     (five_successes (table alice_bound_bcrypt)) eq_refl _)).
    simpl. lia.
Defined.

(** X14. The first-use [UPDATE] is keyed by username alone: after a first
    use without failure every row carrying that username holds the new
    secret, also a row whose password had been set, should the table lack
    the [UNIQUE] constraint. *)
Theorem first_use_rewrites_every_row_of_the_username
  {B : Bcrypt} {C : NodeCrypto} (cfg : sqltext) (key iv u p : string)
  (w : World) (user : Row) (rows : list Row) :
  quiet w ->
  sql_select u (table w) = user :: rows ->
  js_not (password user) = true ->
  (forall r, In r (table (snd (CustomAuth.authenticate cfg u p w))) ->
             username r = u ->
             password r
             = Some (bcrypt_hash (p ++ CustomAuth.STATIC_SALT cfg)
                       (rng w CustomAuth.SALT_ROUNDS (drawn w)))) /\
  (forall r, In r (table (snd (AesPool.authenticate key iv u p w))) ->
             username r = u ->
             password r = Some (base64 (aes_256_cbc key iv p))).
Proof.
  intros Q Hs Hn.
  assert (K : forall secret r,
             In r (sql_update_password secret u (table w)) ->
             username r = u -> password r = Some secret).
  { intros secret r Hin Hu. unfold sql_update_password in Hin.
    apply in_map_iff in Hin as (r0 & E & _).
    destruct (String.eqb (username r0) u) eqn:Eu; subst r; [reflexivity|].
    apply String.eqb_neq in Eu. contradiction. }
  destruct (custom_first_use cfg u p Q Hs Hn) as (_ & Ht & _).
  destruct (pool_first_use key iv u p Q Hs Hn) as (_ & Ht' & _).
  rewrite Ht, Ht'. split; apply K.
Qed.

Lemma first_use_rewrites_every_row_of_the_username_witness :
  quiet alice_twice /\
  forall r,
    In r (table (snd (AesPool.authenticate (C:=ModelCrypto) "k" "iv"
                        "alice" "hunter2" alice_twice))) ->
    username r = "alice" ->
    password r = Some (model_cipher "k" "iv" "hunter2").
Proof.
  split; [reflexivity|].
  exact (proj2 (@first_use_rewrites_every_row_of_the_username
                  ModelBcrypt ModelCrypto None "k" "iv" "alice" "hunter2"
                  alice_twice _ _ eq_refl eq_refl eq_refl)).
Defined.

(** X15. The single-client file, which builds its promise by hand, behaves
    as the pooled cipher file under every failure schedule: [authenticate]
    and [users] resolve to the same value, leave the same table and make the
    same external calls. *)
Theorem client_file_matches_pool_file
  {C : NodeCrypto} (key iv u p : string) (w : World) :
  (fst (AesClient.authenticate key iv u p w)
   = fst (AesPool.authenticate key iv u p w) /\
   table (snd (AesClient.authenticate key iv u p w))
   = table (snd (AesPool.authenticate key iv u p w)) /\
   faults (snd (AesClient.authenticate key iv u p w))
   = faults (snd (AesPool.authenticate key iv u p w)))
  /\
  (fst (AesClient.users u w) = fst (AesPool.users u w) /\
   table (snd (AesClient.users u w)) = table (snd (AesPool.users u w)) /\
   faults (snd (AesClient.users u w)) = faults (snd (AesPool.users u w))).
Proof.
  split; [apply client_as_pool|].
  destruct w as [t fs r d c].
  destruct (sql_select_info u t) eqn:E; run; auto.
Qed.
